(** * Polygon primitive (Source/Scene/Polygon.js)

    A shallow embedding of the Cesium [Polygon] scene primitive: the
    hierarchy flattening of [configureFromPolygonHierarchy] and the
    dirty-tracking rebuild logic of [update], with the setters and the
    destruction protocol around them.

    JavaScript values are modelled as the code uses them: numbers are IEEE
    754 doubles ([spec_float], compared with the IEEE comparison, so that
    [NaN] and the two zeros behave as in JavaScript), [undefined] is [None],
    objects compared with [!==] carry a reference, arrays are lists, and a
    method is a computation in a state-and-exception monad over the polygon
    object and the world of external collaborators. *)

From Stdlib Require Import List Arith ZArith Lia Bool String.
From Stdlib Require Import Floats.SpecFloat.
From Equations Require Import Equations.
Import ListNotations.

(** ** JavaScript values *)

Module JS.

(** A JavaScript number: an IEEE 754 double. *)
Definition number := spec_float.

Definition zero : number := S754_zero false.
Definition negZero : number := S754_zero true.
Definition NaN : number := S754_nan.

(** A property holding a number or [undefined]. *)
Definition value := option number.

Definition undefined {A : Type} : option A := None.

(** [defined(value)], line 248: [typeof value !== 'undefined']. *)
Definition defined {A : Type} (v : option A) : bool :=
  match v with Some _ => true | None => false end.

(** [a < b] on numbers-or-undefined: [undefined] converts to [NaN], and
    every comparison with [NaN] is false. *)
Definition lt (a b : value) : bool :=
  match a, b with
  | Some x, Some y => SFltb x y
  | _, _ => false
  end.

(** [a !== b] on numbers-or-undefined: values of different types differ,
    [undefined] equals itself, numbers are compared as IEEE doubles. *)
Definition strictNeq (a b : value) : bool :=
  match a, b with
  | None, None => false
  | Some x, Some y => negb (SFeqb x y)
  | _, _ => true
  end.

Definition isNaN (a : value) : bool :=
  match a with Some S754_nan => true | _ => false end.

End JS.

(** ** Points and rings *)

Record Cartesian3 : Type := mkCartesian3 {
  x : JS.number;
  y : JS.number;
  z : JS.number
}.

(** An array of positions. *)
Definition Ring := list Cartesian3.

(** ** Errors

    Every [throw] of the file throws a [DeveloperError] carrying a message;
    reading a property of [undefined] is the engine's [TypeError]. *)

Inductive Exception : Type :=
| DeveloperError (message : string)
| TypeError.

Definition atLeastThreePositions : Exception :=
  DeveloperError "At least three positions are required.".
Definition ellipsoidMustBeDefined : Exception :=
  DeveloperError "this.ellipsoid must be defined.".
Definition materialMustBeDefined : Exception :=
  DeveloperError "this.material must be defined.".
Definition granularityMustBePositive : Exception :=
  DeveloperError
    "this.granularity and scene2D/scene3D overrides must be greater than zero.".
Definition objectWasDestroyed : Exception :=
  DeveloperError "This object was destroyed, i.e., destroy() was called.".

(** The three error kinds the specification tells apart. *)
Inductive ErrorKind : Type :=
| ConfigurationError
| InvariantViolation
| UseAfterDestroy.

Definition Exception_eqb (a b : Exception) : bool :=
  match a, b with
  | DeveloperError m, DeveloperError n => String.eqb m n
  | TypeError, TypeError => true
  | _, _ => false
  end.

(** The kind of a thrown error, read off its message. *)
Definition errorKind (e : Exception) : option ErrorKind :=
  if Exception_eqb e atLeastThreePositions then Some ConfigurationError
  else if Exception_eqb e ellipsoidMustBeDefined then Some InvariantViolation
  else if Exception_eqb e materialMustBeDefined then Some InvariantViolation
  else if Exception_eqb e granularityMustBePositive then Some InvariantViolation
  else if Exception_eqb e objectWasDestroyed then Some UseAfterDestroy
  else None.

(** ** Polygon hierarchies

    [{ positions : [...], holes : [ ... ] }], where [holes] is optional. *)

#[local] Set Warnings "-register-all".

Inductive Hierarchy : Type :=
| mkHierarchy (positions : Ring) (holes : option (list Hierarchy)).

Definition positions (h : Hierarchy) : Ring :=
  match h with mkHierarchy p _ => p end.

Definition holes (h : Hierarchy) : option (list Hierarchy) :=
  match h with mkHierarchy _ hs => hs end.

(** Number of nodes of a hierarchy; the loop of the flattening decreases the
    total weight of its queue. *)
Fixpoint weight (h : Hierarchy) : nat :=
  match h with
  | mkHierarchy _ hs =>
      S (match hs with
         | None => 0
         | Some l =>
             (fix weights (l : list Hierarchy) : nat :=
                match l with
                | [] => 0
                | c :: t => weight c + weights t
                end) l
         end)
  end.

Fixpoint weights (l : list Hierarchy) : nat :=
  match l with
  | [] => 0
  | c :: t => weight c + weights t
  end.

(** ** The work queue *)

Module Queue.

(** Modelled from the spec: [Core/Queue] is not part of the sources.  The
    specification calls it a FIFO work queue: a queue is the list of its
    items, the front first, and [dequeue] takes the head. *)
Definition t := list Hierarchy.

(** Modelled from the spec: [new Queue()], the queue without items. *)
Definition empty : t := [].

(** Modelled from the spec: [queue.enqueue(item)] of the FIFO work queue
    adds the item at the back. *)
Definition enqueue (q : t) (item : Hierarchy) : t := q ++ [item].

End Queue.

(** ** Hierarchy flattening, lines 204-241 *)

Section Flatten.

(** [PolygonPipeline.eliminateHoles(outerRing, holes)], an external
    collaborator: it merges the holes into the outer ring. *)
Variable eliminateHoles : Ring -> list Ring -> Ring.

(** [outerNode.holes ? outerNode.holes.length : 0], and the same test on a
    hole at lines 229-232: an array is truthy even when empty. *)
Definition children (node : Hierarchy) : list Hierarchy :=
  match holes node with
  | Some l => l
  | None => []
  end.

Definition numChildren (node : Hierarchy) : nat := List.length (children node).

(** The inner loop, lines 234-236: enqueue every grandchild. *)
Definition enqueueAll (queue : Queue.t) (items : list Hierarchy) : Queue.t :=
  fold_left Queue.enqueue items queue.

(** The loop over the holes, lines 224-237: collect each hole's positions
    and enqueue the polygons nested in it. *)
Definition scanHoles (holeNodes : list Hierarchy) (queue : Queue.t)
  : list Ring * Queue.t :=
  fold_left
    (fun (acc : list Ring * Queue.t) (hole : Hierarchy) =>
       (fst acc ++ [positions hole], enqueueAll (snd acc) (children hole)))
    holeNodes ([], queue).

Lemma enqueueAll_app queue items : enqueueAll queue items = queue ++ items.
Proof.
  unfold enqueueAll.
  revert queue; induction items as [|i items IH]; intros queue; cbn.
  - now rewrite app_nil_r.
  - rewrite IH. unfold Queue.enqueue. now rewrite <- app_assoc.
Qed.

Lemma scanHoles_spec holeNodes queue :
  scanHoles holeNodes queue =
  (map positions holeNodes, queue ++ flat_map children holeNodes).
Proof.
  unfold scanHoles.
  enough (G : forall acc q,
             fold_left
               (fun (acc : list Ring * Queue.t) (hole : Hierarchy) =>
                  (fst acc ++ [positions hole],
                   enqueueAll (snd acc) (children hole)))
               holeNodes (acc, q) =
             (acc ++ map positions holeNodes,
              q ++ flat_map children holeNodes)) by apply G.
  induction holeNodes as [|h hs IH]; intros acc q; cbn.
  - now rewrite !app_nil_r.
  - rewrite IH, enqueueAll_app, <- !app_assoc. reflexivity.
Qed.

Lemma weight_unfold node : weight node = S (weights (children node)).
Proof.
  destruct node as [p [l|]]; reflexivity.
Qed.

Lemma weights_app l1 l2 : weights (l1 ++ l2) = weights l1 + weights l2.
Proof. induction l1 as [|c t IH]; cbn; [reflexivity|]. rewrite IH. lia. Qed.

Lemma weights_grandchildren l : weights (flat_map children l) <= weights l.
Proof.
  induction l as [|c t IH]; cbn; [lia|].
  rewrite weights_app, (weight_unfold c). lia.
Qed.

Lemma scanHoles_weight node rest :
  weights (snd (scanHoles (children node) rest)) < weights (node :: rest).
Proof.
  rewrite scanHoles_spec; cbn [snd weights].
  rewrite weights_app, (weight_unfold node).
  pose proof (weights_grandchildren (children node)).
  lia.
Qed.

(** The [while (queue.length !== 0)] loop.  [polygons] and [queue] are the
    two local arrays, [queue.dequeue()] takes the head of the queue, and a
    [throw] leaves the loop with [inl]. *)
Equations? flattenLoop (polygons : list Ring) (queue : Queue.t)
  : Exception + list Ring by wf (weights queue) lt :=
  flattenLoop polygons [] := inr polygons;
  flattenLoop polygons (outerNode :: rest) :=
    let outerRing := positions outerNode in
    if List.length outerRing <? 3 then inl atLeastThreePositions
    else if numChildren outerNode =? 0 then
      flattenLoop (polygons ++ [positions outerNode]) rest
    else
      flattenLoop
        (polygons ++
           [eliminateHoles outerRing
              (fst (scanHoles (children outerNode) rest))])
        (snd (scanHoles (children outerNode) rest)).
Proof.
  - rewrite (weight_unfold outerNode). lia.
  - apply (scanHoles_weight outerNode rest).
Qed.

(** The local part of [configureFromPolygonHierarchy]: the queue is seeded
    with the hierarchy and the loop runs until the queue is empty. *)
Definition flatten (hierarchy : Hierarchy) : Exception + list Ring :=
  flattenLoop [] (Queue.enqueue Queue.empty hierarchy).

End Flatten.

(** ** External objects

    The collaborators of the polygon are objects of other files.  Each is a
    record of the data this file gives it or reads from it; an object that is
    compared with [!==] or held across calls carries its reference. *)

Definition Ref := nat.

Record Ellipsoid : Type := mkEllipsoid {
  ellipsoidRef : Ref;
  radii : Cartesian3
}.

Record Color : Type := mkColor {
  red : JS.number;
  green : JS.number;
  blue : JS.number;
  alpha : JS.number
}.

(** [Material.ColorType] (line 88) and [Material.StripeType] (line 105). *)
Inductive MaterialType : Type := ColorType | StripeType.

Record Material : Type := mkMaterial {
  materialRef : Ref;
  materialType : MaterialType;
  color : Color
}.

(** [EllipsoidSurfaceAppearance.VERTEX_FORMAT], a constant of another file. *)
Inductive VertexFormat : Type := VERTEX_FORMAT.

(** What [_polygonHierarchy] can hold: the constructor stores the hierarchy
    option as given, [configureFromPolygonHierarchy] stores the array of
    flattened polygons. *)
Inductive HierarchyValue : Type :=
| GivenHierarchy (hierarchy : Hierarchy)
| Polygons (polygons : list Ring).

(** The options object of [new PolygonGeometry({...})], lines 296-304. *)
Record PolygonGeometry : Type := mkPolygonGeometry {
  geometryPositions : option Ring;
  geometryPolygonHierarchy : option HierarchyValue;
  geometryHeight : JS.value;
  vertexFormat : VertexFormat;
  stRotation : JS.value;
  geometryEllipsoid : option Ellipsoid;
  geometryGranularity : JS.value
}.

(** [new EllipsoidSurfaceAppearance({ aboveGround : ... })] with the
    [material] property that line 316 assigns. *)
Record Appearance : Type := mkAppearance {
  aboveGround : bool;
  appearanceMaterial : option Material
}.

(** [new Primitive({ geometryInstances : ..., appearance : ... })].  The
    geometry instance is its geometry; its [pickData] is the polygon itself. *)
Record Primitive : Type := mkPrimitive {
  primitiveRef : Ref;
  geometryInstances : PolygonGeometry;
  appearance : Appearance
}.

(** The arguments [update] only passes through. *)
Record Frame : Type := mkFrame {
  context : Ref;
  frameState : Ref;
  commandList : Ref
}.

(** What the polygon does to its collaborators, in order. *)
Inductive Event : Type :=
| NewPrimitive (primitive : Primitive)
| PrimitiveDestroy (primitive : Ref)
| AssignMaterial (primitive : Ref) (material : option Material)
| PrimitiveUpdate (primitive : Ref) (frame : Frame).

(** The world outside the polygon: the next fresh object reference and the
    calls made so far. *)
Record World : Type := mkWorld {
  nextRef : Ref;
  events : list Event
}.

(** ** The polygon object

    The fields of the constructor, lines 54-116.  [destroyed] stands for the
    state [destroyObject] leaves the object in. *)

Record Polygon : Type := mkPolygon {
  ellipsoid : option Ellipsoid;
  _ellipsoid : option Ellipsoid;
  granularity : JS.value;
  _granularity : JS.value;
  height : JS.value;
  _height : JS.value;
  textureRotationAngle : JS.value;
  _textureRotationAngle : JS.value;
  show : bool;
  material : option Material;
  _positions : option Ring;
  _polygonHierarchy : option HierarchyValue;
  _createPrimitive : bool;
  _primitive : option Primitive;
  destroyed : bool
}.

(** Assignments [this.f = v], one per field. *)
Definition set_ellipsoid v (p : Polygon) : Polygon :=
  let '(mkPolygon _ b c d e f g h i j k l m n o) := p in
  mkPolygon v b c d e f g h i j k l m n o.
Definition set__ellipsoid v (p : Polygon) : Polygon :=
  let '(mkPolygon a _ c d e f g h i j k l m n o) := p in
  mkPolygon a v c d e f g h i j k l m n o.
Definition set_granularity v (p : Polygon) : Polygon :=
  let '(mkPolygon a b _ d e f g h i j k l m n o) := p in
  mkPolygon a b v d e f g h i j k l m n o.
Definition set__granularity v (p : Polygon) : Polygon :=
  let '(mkPolygon a b c _ e f g h i j k l m n o) := p in
  mkPolygon a b c v e f g h i j k l m n o.
Definition set_height v (p : Polygon) : Polygon :=
  let '(mkPolygon a b c d _ f g h i j k l m n o) := p in
  mkPolygon a b c d v f g h i j k l m n o.
Definition set__height v (p : Polygon) : Polygon :=
  let '(mkPolygon a b c d e _ g h i j k l m n o) := p in
  mkPolygon a b c d e v g h i j k l m n o.
Definition set_textureRotationAngle v (p : Polygon) : Polygon :=
  let '(mkPolygon a b c d e f _ h i j k l m n o) := p in
  mkPolygon a b c d e f v h i j k l m n o.
Definition set__textureRotationAngle v (p : Polygon) : Polygon :=
  let '(mkPolygon a b c d e f g _ i j k l m n o) := p in
  mkPolygon a b c d e f g v i j k l m n o.
Definition set_show v (p : Polygon) : Polygon :=
  let '(mkPolygon a b c d e f g h _ j k l m n o) := p in
  mkPolygon a b c d e f g h v j k l m n o.
Definition set_material v (p : Polygon) : Polygon :=
  let '(mkPolygon a b c d e f g h i _ k l m n o) := p in
  mkPolygon a b c d e f g h i v k l m n o.
Definition set__positions v (p : Polygon) : Polygon :=
  let '(mkPolygon a b c d e f g h i j _ l m n o) := p in
  mkPolygon a b c d e f g h i j v l m n o.
Definition set__polygonHierarchy v (p : Polygon) : Polygon :=
  let '(mkPolygon a b c d e f g h i j k _ m n o) := p in
  mkPolygon a b c d e f g h i j k v m n o.
Definition set__createPrimitive v (p : Polygon) : Polygon :=
  let '(mkPolygon a b c d e f g h i j k l _ n o) := p in
  mkPolygon a b c d e f g h i j k l v n o.
Definition set__primitive v (p : Polygon) : Polygon :=
  let '(mkPolygon a b c d e f g h i j k l m _ o) := p in
  mkPolygon a b c d e f g h i j k l m v o.
Definition set_destroyed v (p : Polygon) : Polygon :=
  let '(mkPolygon a b c d e f g h i j k l m n _) := p in
  mkPolygon a b c d e f g h i j k l m n v.

(** ** Method bodies as computations

    A statement runs on the polygon and the world and completes normally,
    by [return], or by [throw]; assignments made before a [throw] stay. *)

Record State : Type := mkState {
  this : Polygon;
  world : World
}.

Inductive Completion (R A : Type) : Type :=
| Normal (a : A)
| Return (r : R)
| Throw (e : Exception).
Arguments Normal {R A} a.
Arguments Return {R A} r.
Arguments Throw {R A} e.

Definition M (R A : Type) : Type := State -> Completion R A * State.

Definition ret {R A} (a : A) : M R A := fun s => (Normal a, s).

Definition bind {R A B} (c : M R A) (k : A -> M R B) : M R B :=
  fun s =>
    match c s with
    | (Normal a, s') => k a s'
    | (Return r, s') => (Return r, s')
    | (Throw e, s') => (Throw e, s')
    end.

Definition throw {R A} (e : Exception) : M R A := fun s => (Throw e, s).

Definition return_ {R A} (r : R) : M R A := fun s => (Return r, s).

Declare Scope js_scope.
Delimit Scope js_scope with js.
Notation "x <- c ;; k" := (bind c (fun x => k))
  (at level 61, c at next level, right associativity) : js_scope.
Notation "c ;; k" := (bind c (fun _ => k))
  (at level 61, right associativity) : js_scope.
Open Scope js_scope.

(** Read [this]. *)
Definition self {R} : M R Polygon := fun s => (Normal (this s), s).

(** [this.f = v]. *)
Definition assign {R} (f : Polygon -> Polygon) : M R unit :=
  fun s => (Normal tt, mkState (f (this s)) (world s)).

(** A call on a collaborator, recorded in the world. *)
Definition emit {R} (e : Event) : M R unit :=
  fun s =>
    (Normal tt,
     mkState (this s) (mkWorld (nextRef (world s)) (events (world s) ++ [e]))).

(** The reference of a newly created object. *)
Definition fresh {R} : M R Ref :=
  fun s =>
    (Normal (nextRef (world s)),
     mkState (this s) (mkWorld (S (nextRef (world s))) (events (world s)))).

(** [if (c) { body }] *)
Definition when {R} (c : bool) (body : M R unit) : M R unit :=
  if c then body else ret tt.

(** A function call: the body's completion seen by the caller, where falling
    off the end returns [undefined]. *)
Definition call {R} (undefined : R) (body : M R unit)
  : State -> (Exception + R) * State :=
  fun s =>
    match body s with
    | (Normal _, s') => (inr undefined, s')
    | (Return r, s') => (inr r, s')
    | (Throw e, s') => (inl e, s')
    end.

(** The result of a local computation that may throw. *)
Definition local {R A} (r : Exception + A) : M R A :=
  match r with
  | inl e => throw e
  | inr a => ret a
  end.

(** What a method of the polygon returns. *)
Inductive Returned : Type :=
| Undefined
| Boolean (b : bool)
| Positions (positions : Ring).

(** [a !== b] on ellipsoids: objects are compared by reference. *)
Definition ellipsoidStrictNeq (a b : option Ellipsoid) : bool :=
  match a, b with
  | None, None => false
  | Some e1, Some e2 => negb (ellipsoidRef e1 =? ellipsoidRef e2)
  | _, _ => true
  end.

(** ** The constructor, lines 54-116 *)

Record Options : Type := mkOptions {
  optionEllipsoid : option Ellipsoid;
  optionGranularity : JS.value;
  optionHeight : JS.value;
  optionTextureRotationAngle : JS.value;
  optionShow : option bool;
  optionMaterial : option Material;
  optionPositions : option Ring;
  optionPolygonHierarchy : option HierarchyValue
}.

(** [defaultValue.EMPTY_OBJECT] *)
Definition EMPTY_OBJECT : Options :=
  mkOptions None None None None None None None None.

(** [defaultValue(a, b)]: [a] unless it is undefined. *)
Definition defaultValue {A} (a : option A) (b : A) : A :=
  match a with
  | Some v => v
  | None => b
  end.

(** The doubles 1.0 and 0.5 of line 89. *)
Definition one : JS.number := S754_finite false 4503599627370496 (-52).
Definition half : JS.number := S754_finite false 4503599627370496 (-53).

Section Constructor.

(** [Ellipsoid.WGS84], a constant of [Core/Ellipsoid]. *)
Variable WGS84 : Ellipsoid.

(** [CesiumMath.toRadians(1.0)], computed in [Core/Math]. *)
Variable oneDegree : JS.number.

(** [new Polygon(options)]: the default material is a new object. *)
Definition newPolygon (options : option Options) (w : World)
  : Polygon * World :=
  let options := defaultValue options EMPTY_OBJECT in
  let material :=
    mkMaterial (nextRef w) ColorType (mkColor one one JS.zero half) in
  (mkPolygon
     (Some (defaultValue (optionEllipsoid options) WGS84))
     JS.undefined
     (Some (defaultValue (optionGranularity options) oneDegree))
     JS.undefined
     (Some (defaultValue (optionHeight options) JS.zero))
     JS.undefined
     (optionTextureRotationAngle options)
     JS.undefined
     (defaultValue (optionShow options) true)
     (Some (defaultValue (optionMaterial options) material))
     (optionPositions options)
     (optionPolygonHierarchy options)
     false
     JS.undefined
     false,
   mkWorld (S (nextRef w)) (events w)).

End Constructor.

(** ** The methods *)

Section Methods.

Variable eliminateHoles : Ring -> list Ring -> Ring.

(** [getPositions], lines 127-129. *)
Definition getPositions : M Returned unit :=
  p <- self ;;
  match _positions p with
  | Some positions => return_ (Positions positions)
  | None => return_ Undefined
  end.

(** [setPositions], lines 150-158. *)
Definition setPositions (positions : option Ring) : M Returned unit :=
  when (match positions with
        | Some array => List.length array <? 3
        | None => false
        end)
    (throw atLeastThreePositions) ;;
  assign (set__positions positions) ;;
  assign (set__polygonHierarchy JS.undefined) ;;
  assign (set__createPrimitive true).

(** [configureFromPolygonHierarchy], lines 204-246: the loop works on
    local arrays only, the three assignments follow it. *)
Definition configureFromPolygonHierarchy (hierarchy : Hierarchy)
  : M Returned unit :=
  polygons <- local (flatten eliminateHoles hierarchy) ;;
  assign (set__positions JS.undefined) ;;
  assign (set__polygonHierarchy (Some (Polygons polygons))) ;;
  assign (set__createPrimitive true).

(** Modelled from the spec: [Primitive.prototype.destroy] is not part of
    the sources; it is the handle's [dispose()], which releases the
    primitive.  The assignment of its result at lines 289 and 356 leaves
    [_primitive] undefined, as the comment above [destroy] says of
    [destroy()] in general. *)
Definition primitiveDestroy {R} (primitive : Primitive)
  : M R (option Primitive) :=
  emit (PrimitiveDestroy (primitiveRef primitive)) ;;
  ret JS.undefined.

(** [this._primitive = this._primitive && this._primitive.destroy()],
    lines 289 and 356: an undefined [_primitive] is assigned to itself. *)
Definition destroyPrimitive {R} : M R unit :=
  p <- self ;;
  match _primitive p with
  | Some primitive =>
      result <- primitiveDestroy primitive ;;
      assign (set__primitive result)
  | None => assign (set__primitive JS.undefined)
  end.

(** The condition of line 277. *)
Definition dirty (p : Polygon) : bool :=
  _createPrimitive p
  || ellipsoidStrictNeq (_ellipsoid p) (ellipsoid p)
  || JS.strictNeq (_granularity p) (granularity p)
  || JS.strictNeq (_height p) (height p)
  || JS.strictNeq (_textureRotationAngle p) (textureRotationAngle p).

(** Lines 283-313, the body of the [if] of line 277. *)
Definition rebuild : M Returned unit :=
  assign (set__createPrimitive false) ;;
  p <- self ;; assign (set__ellipsoid (ellipsoid p)) ;;
  p <- self ;; assign (set__granularity (granularity p)) ;;
  p <- self ;; assign (set__height (height p)) ;;
  p <- self ;; assign (set__textureRotationAngle (textureRotationAngle p)) ;;
  destroyPrimitive ;;
  p <- self ;;
  when (negb (JS.defined (_positions p))
        && negb (JS.defined (_polygonHierarchy p)))
    (return_ Undefined) ;;
  ref <- fresh ;;
  let primitive :=
    mkPrimitive ref
      (mkPolygonGeometry (_positions p) (_polygonHierarchy p) (height p)
         VERTEX_FORMAT (textureRotationAngle p) (ellipsoid p)
         (granularity p))
      (mkAppearance (JS.lt (Some JS.zero) (height p)) JS.undefined) in
  emit (NewPrimitive primitive) ;;
  assign (set__primitive (Some primitive)).

(** [update], lines 255-318. *)
Definition update (frame : Frame) : M Returned unit :=
  p <- self ;;
  when (negb (JS.defined (ellipsoid p))) (throw ellipsoidMustBeDefined) ;;
  when (negb (JS.defined (material p))) (throw materialMustBeDefined) ;;
  when (JS.lt (granularity p) (Some JS.zero))
    (throw granularityMustBePositive) ;;
  when (negb (show p)) (return_ Undefined) ;;
  when (negb (_createPrimitive p) && negb (JS.defined (_primitive p)))
    (return_ Undefined) ;;
  when (dirty p) rebuild ;;
  p <- self ;;
  match _primitive p with
  | None => throw TypeError
  | Some primitive =>
      let appearance' :=
        mkAppearance (aboveGround (appearance primitive)) (material p) in
      assign (set__primitive
                (Some (mkPrimitive (primitiveRef primitive)
                         (geometryInstances primitive) appearance'))) ;;
      emit (AssignMaterial (primitiveRef primitive) (material p)) ;;
      emit (PrimitiveUpdate (primitiveRef primitive) frame)
  end.

(** [isDestroyed], lines 332-334. *)
Definition isDestroyed : M Returned unit := return_ (Boolean false).

(** Modelled from the spec: [Core/destroyObject] is not part of the
    sources.  The specification says that [destroy()] marks the controller
    itself as destroyed and that every later call of a method other than
    the destroyed-check fails; the comment above [destroy] says the same
    and that the call returns [undefined]. *)
Definition destroyObject {R} : M R Returned :=
  assign (set_destroyed true) ;;
  ret Undefined.

(** [destroy], lines 355-358. *)
Definition destroy : M Returned unit :=
  destroyPrimitive ;;
  r <- destroyObject ;;
  return_ r.

(** The methods a caller can invoke, with their arguments. *)
Inductive Method : Type :=
| GetPositions
| SetPositions (positions : option Ring)
| ConfigureFromPolygonHierarchy (hierarchy : Hierarchy)
| Update (frame : Frame)
| IsDestroyed
| Destroy.

Definition body (m : Method) : M Returned unit :=
  match m with
  | GetPositions => getPositions
  | SetPositions positions => setPositions positions
  | ConfigureFromPolygonHierarchy hierarchy =>
      configureFromPolygonHierarchy hierarchy
  | Update frame => update frame
  | IsDestroyed => isDestroyed
  | Destroy => destroy
  end.

(** Modelled from the spec: a call [polygon.m(...)].  On an object that
    [destroyObject] has marked, the destroyed-check answers [true] and every
    other method fails; otherwise the method of the prototype runs. *)
Definition invoke (m : Method) : State -> (Exception + Returned) * State :=
  fun s =>
    if destroyed (this s) then
      match m with
      | IsDestroyed => (inr (Boolean true), s)
      | _ => (inl objectWasDestroyed, s)
      end
    else call Undefined (body m) s.

End Methods.

(** * Observations

    What the properties below speak about: the breadth-first order of a
    hierarchy, the events of a call, the paths through [update], and sample
    objects. *)

(** ** Breadth-first order

    The specification's account of the traversal, written without a queue:
    the hierarchy is visited level by level.  The polygons nested in the
    holes of a node are the next level below it; a node yields its own ring
    when it has no holes and the merge of its ring with the rings of its
    holes otherwise. *)

(** The polygons nested in the holes of a node. *)
Definition islands (node : Hierarchy) : list Hierarchy :=
  flat_map children (children node).

(** The loop a visited node contributes to the output. *)
Definition loopOf (eliminateHoles : Ring -> list Ring -> Ring)
    (node : Hierarchy) : Ring :=
  match children node with
  | [] => positions node
  | holeNodes => eliminateHoles (positions node) (map positions holeNodes)
  end.

(** The nodes of [level] and of the levels below it, down to [depth]
    levels. *)
Fixpoint levelsFrom (depth : nat) (level : list Hierarchy) : list Hierarchy :=
  match depth with
  | 0 => []
  | S depth' => level ++ levelsFrom depth' (flat_map islands level)
  end.

(** The visited nodes of a hierarchy in breadth-first order; no hierarchy
    has more levels than nodes. *)
Definition breadthFirst (hierarchy : Hierarchy) : list Hierarchy :=
  levelsFrom (weight hierarchy) [hierarchy].

(** The ring of a visited node has at least three positions. *)
Definition longEnough (node : Hierarchy) : bool :=
  3 <=? List.length (positions node).

(** ** Observing a run *)

(** A call of a method of the prototype on a live object. *)
Definition run (body : M Returned unit) : State -> (Exception + Returned) * State :=
  call Undefined body.

(** The events a step from [s] to [s'] added. *)
Definition eventsSince (s s' : State) : list Event :=
  skipn (List.length (events (world s))) (events (world s')).

(** The primitives built, the primitives destroyed and the materials
    assigned in a list of events. *)
Definition buildRequests (l : list Event) : list Primitive :=
  flat_map (fun e => match e with NewPrimitive p => [p] | _ => [] end) l.

Definition disposals (l : list Event) : list Ref :=
  flat_map (fun e => match e with PrimitiveDestroy r => [r] | _ => [] end) l.

Definition materialAssignments (l : list Event) : list (Ref * option Material) :=
  flat_map (fun e => match e with AssignMaterial r m => [(r, m)] | _ => [] end) l.

(** The three checks of lines 256-266 pass. *)
Definition passesChecks (p : Polygon) : bool :=
  JS.defined (ellipsoid p) && JS.defined (material p)
  && negb (JS.lt (granularity p) (Some JS.zero)).

(** The error of the first check of lines 256-266 that fails. *)
Definition failedCheck (p : Polygon) : option Exception :=
  if negb (JS.defined (ellipsoid p)) then Some ellipsoidMustBeDefined
  else if negb (JS.defined (material p)) then Some materialMustBeDefined
  else if JS.lt (granularity p) (Some JS.zero)
       then Some granularityMustBePositive
  else None.

(** Either boundary store holds something (the negation of line 291). *)
Definition hasBoundary (p : Polygon) : bool :=
  JS.defined (_positions p) || JS.defined (_polygonHierarchy p).

(** The assignments of lines 283-287. *)
Definition snapshot (p : Polygon) : Polygon :=
  set__textureRotationAngle (textureRotationAngle p)
    (set__height (height p)
       (set__granularity (granularity p)
          (set__ellipsoid (ellipsoid p)
             (set__createPrimitive false p)))).

(** The event of line 289, if a primitive is held. *)
Definition disposal (p : Polygon) : list Event :=
  match _primitive p with
  | Some primitive => [PrimitiveDestroy (primitiveRef primitive)]
  | None => []
  end.

(** The primitive of lines 295-313. *)
Definition built (p : Polygon) (ref : Ref) : Primitive :=
  mkPrimitive ref
    (mkPolygonGeometry (_positions p) (_polygonHierarchy p) (height p)
       VERTEX_FORMAT (textureRotationAngle p) (ellipsoid p) (granularity p))
    (mkAppearance (JS.lt (Some JS.zero) (height p)) JS.undefined).

(** The primitive after line 316. *)
Definition withMaterial (m : option Material) (primitive : Primitive) : Primitive :=
  mkPrimitive (primitiveRef primitive) (geometryInstances primitive)
    (mkAppearance (aboveGround (appearance primitive)) m).

(** Lines 316-317 on the primitive [primitive]. *)
Definition drawn (frame : Frame) (p : Polygon) (primitive : Primitive) : list Event :=
  [AssignMaterial (primitiveRef primitive) (material p);
   PrimitiveUpdate (primitiveRef primitive) frame].

(** ** The paths through [update]

    Every call of [update] takes exactly one of six paths; each fixes the
    completion, the polygon and the world after the call. *)

Inductive UpdatePath (frame : Frame) (p : Polygon) (w : World)
  : (Exception + Returned) * State -> Prop :=
| PathInvalid e :
    passesChecks p = false ->
    failedCheck p = Some e ->
    errorKind e = Some InvariantViolation ->
    UpdatePath frame p w (inl e, mkState p w)
| PathHidden :
    passesChecks p = true ->
    show p = false ->
    UpdatePath frame p w (inr Undefined, mkState p w)
| PathIdle :
    passesChecks p = true ->
    show p = true ->
    _createPrimitive p = false ->
    _primitive p = None ->
    UpdatePath frame p w (inr Undefined, mkState p w)
| PathReuse primitive :
    passesChecks p = true ->
    show p = true ->
    _primitive p = Some primitive ->
    dirty p = false ->
    UpdatePath frame p w
      (inr Undefined,
       mkState (set__primitive (Some (withMaterial (material p) primitive)) p)
         (mkWorld (nextRef w) (events w ++ drawn frame p primitive)))
| PathClear :
    passesChecks p = true ->
    show p = true ->
    _createPrimitive p || JS.defined (_primitive p) = true ->
    dirty p = true ->
    hasBoundary p = false ->
    UpdatePath frame p w
      (inr Undefined,
       mkState (set__primitive None (snapshot p))
         (mkWorld (nextRef w) (events w ++ disposal p)))
| PathRebuild :
    passesChecks p = true ->
    show p = true ->
    _createPrimitive p || JS.defined (_primitive p) = true ->
    dirty p = true ->
    hasBoundary p = true ->
    UpdatePath frame p w
      (inr Undefined,
       mkState
         (set__primitive
            (Some (withMaterial (material p) (built p (nextRef w))))
            (snapshot p))
         (mkWorld (S (nextRef w))
            (events w ++ disposal p
               ++ NewPrimitive (built p (nextRef w))
               :: drawn frame p (built p (nextRef w))))).

(** ** Sequences of calls *)

(** The caller assigns a property of the polygon between two calls. *)
Definition assigned (f : Polygon -> Polygon) (s : State) : State :=
  mkState (f (this s)) (world s).

(** [update] called once per frame, for the frames of a list. *)
Fixpoint updateAll (frames : list Frame) (s : State) : State :=
  match frames with
  | [] => s
  | frame :: later => updateAll later (snd (run (update frame) s))
  end.

(** None of the compared numbers is [NaN]. *)
Definition numbersAreNotNaN (p : Polygon) : bool :=
  negb (JS.isNaN (granularity p))
  && negb (JS.isNaN (height p))
  && negb (JS.isNaN (textureRotationAngle p)).

(** The reference of the primitive the polygon holds. *)
Definition heldRef (p : Polygon) : option Ref :=
  option_map primitiveRef (_primitive p).

(** The material the held primitive's appearance carries. *)
Definition heldMaterial (p : Polygon) : option (option Material) :=
  option_map (fun q => appearanceMaterial (appearance q)) (_primitive p).

(** A polygon on which [update] builds and destroys nothing. *)
Definition atRest (p : Polygon) : bool :=
  negb (passesChecks p)
  || negb (show p)
  || (negb (_createPrimitive p) && negb (JS.defined (_primitive p)))
  || negb (dirty p).

(** The next call of [update] builds exactly one primitive, from the flat
    boundary [boundary] and no hierarchy. *)
Definition buildsOnceFrom (boundary : Ring) (frame : Frame) (s : State) : Prop :=
  exists primitive,
    buildRequests (eventsSince s (snd (run (update frame) s))) = [primitive]
    /\ geometryPositions (geometryInstances primitive) = Some boundary
    /\ geometryPolygonHierarchy (geometryInstances primitive) = None.



(** The two methods that set the boundary. *)
Definition isSetter (m : Method) : bool :=
  match m with
  | SetPositions _ | ConfigureFromPolygonHierarchy _ => true
  | _ => false
  end.

(** Calls one after the other, with what each returned or threw. *)
Fixpoint invokeAll (eliminateHoles : Ring -> list Ring -> Ring)
    (ms : list Method) (s : State) : list (Exception + Returned) * State :=
  match ms with
  | [] => ([], s)
  | m :: rest =>
      let (r, s') := invoke eliminateHoles m s in
      let (rs, s'') := invokeAll eliminateHoles rest s' in
      (r :: rs, s'')
  end.

(** What a call on a destroyed polygon gives. *)
Definition afterDestroy (m : Method) : Exception + Returned :=
  match m with
  | IsDestroyed => inr (Boolean true)
  | _ => inl objectWasDestroyed
  end.

(** ** Sample objects

    The triangle within a triangle of the comment above
    [configureFromPolygonHierarchy] (lines 192-202), a render frame, a second
    material, and polygons made by the constructor. *)

Module Sample.

Definition outerTriangle : Ring :=
  [mkCartesian3 (S754_finite true 5446590302323995 (-33))
                (S754_finite true 4948594783114236 (-30))
                (S754_finite false 4669317463443235 (-30));
   mkCartesian3 (S754_finite true 5675898322454587 (-32))
                (S754_finite true 5485609519532104 (-30))
                (S754_finite false 7667365416483768 (-31));
   mkCartesian3 (S754_finite false 6437605997515203 (-37))
                (S754_finite true 5694570406573858 (-30))
                (S754_finite false 7582622134182543 (-31))].

Definition innerTriangle : Ring :=
  [mkCartesian3 (S754_finite true 5549780172380949 (-33))
                (S754_finite true 5166022217109165 (-30))
                (S754_finite false 8854477146968177 (-31));
   mkCartesian3 (S754_finite true 8796225697994003 (-33))
                (S754_finite true 5446170372557281 (-30))
                (S754_finite false 7981107123743618 (-31));
   mkCartesian3 (S754_finite true 8063482440487917 (-35))
                (S754_finite true 5571730957979123 (-30))
                (S754_finite false 7921657135257050 (-31))].

Definition triangleInTriangle : Hierarchy :=
  mkHierarchy outerTriangle (Some [mkHierarchy innerTriangle None]).

(** The ellipsoid of reference 0, with the radii 6378137.0, 6378137.0 and
    6356752.3142451793 of WGS84. *)
Definition WGS84 : Ellipsoid :=
  mkEllipsoid 0
    (mkCartesian3 (S754_finite false 6848472456101888 (-30))
                  (S754_finite false 6848472456101888 (-30))
                  (S754_finite false 6825510824613840 (-30))).

(** The double nearest to pi / 180. *)
Definition oneDegree : JS.number := S754_finite false 5030569068109113 (-58).

(** Reference 0 is taken; nothing has happened yet. *)
Definition initialWorld : World := mkWorld 1 [].

(** [new Polygon(options)] in the initial world. *)
Definition created (options : option Options) : State :=
  let '(p, w) := newPolygon WGS84 oneDegree options initialWorld in
  mkState p w.

(** [new Polygon()] followed by [setPositions(outerTriangle)]. *)
Definition triangle : State :=
  snd (run (setPositions (Some outerTriangle)) (created None)).

Definition frame : Frame := mkFrame 100 101 102.

Definition stripes : Material :=
  mkMaterial 50 StripeType (mkColor one one one one).


(** A stand-in for [PolygonPipeline.eliminateHoles] where a sample run needs
    one: the outer ring followed by the rings of the holes. *)
Definition appendHoles (outerRing : Ring) (holeRings : list Ring) : Ring :=
  outerRing ++ List.concat holeRings.

End Sample.

(** * Properties *)

(** ** Hierarchy flattening *)

Section FlattenFacts.

Variable eliminateHoles : Ring -> list Ring -> Ring.

Lemma flattenLoop_done polygons :
  flattenLoop eliminateHoles polygons [] = inr polygons.
Proof. now simp flattenLoop. Qed.

(** A dequeued node with fewer than three positions stops the loop. *)
Lemma flattenLoop_short polygons outerNode rest :
  List.length (positions outerNode) < 3 ->
  flattenLoop eliminateHoles polygons (outerNode :: rest) =
  inl atLeastThreePositions.
Proof.
  intros Hlen. simp flattenLoop. cbv zeta.
  apply Nat.ltb_lt in Hlen. now rewrite Hlen.
Qed.

(** A dequeued node without holes is pushed as it is. *)
Lemma flattenLoop_simple polygons outerNode rest :
  3 <= List.length (positions outerNode) ->
  children outerNode = [] ->
  flattenLoop eliminateHoles polygons (outerNode :: rest) =
  flattenLoop eliminateHoles (polygons ++ [positions outerNode]) rest.
Proof.
  intros Hlen Hnone. simp flattenLoop. cbv zeta.
  apply Nat.ltb_ge in Hlen. rewrite Hlen.
  unfold numChildren. now rewrite Hnone.
Qed.

(** A dequeued node with holes is merged with the rings of its holes, and
    the polygons nested in the holes join the back of the queue. *)
Lemma flattenLoop_holes polygons outerNode rest :
  3 <= List.length (positions outerNode) ->
  children outerNode <> [] ->
  flattenLoop eliminateHoles polygons (outerNode :: rest) =
  flattenLoop eliminateHoles
    (polygons ++
       [eliminateHoles (positions outerNode)
          (map positions (children outerNode))])
    (rest ++ flat_map children (children outerNode)).
Proof.
  intros Hlen Hsome. simp flattenLoop. cbv zeta.
  apply Nat.ltb_ge in Hlen. rewrite Hlen.
  unfold numChildren.
  destruct (children outerNode) as [|c cs] eqn:Hc; [congruence|].
  cbn [List.length Nat.eqb]. now rewrite scanHoles_spec.
Qed.

End FlattenFacts.

(** ** The loop visits level by level *)

Section BreadthFirst.

Variable eliminateHoles : Ring -> list Ring -> Ring.

(** One turn of the loop. *)
Lemma flattenLoop_step polygons outerNode rest :
  flattenLoop eliminateHoles polygons (outerNode :: rest) =
  if longEnough outerNode then
    flattenLoop eliminateHoles (polygons ++ [loopOf eliminateHoles outerNode])
      (rest ++ islands outerNode)
  else inl atLeastThreePositions.
Proof.
  unfold longEnough.
  destruct (Nat.leb_spec 3 (List.length (positions outerNode))) as [Hge|Hlt].
  - unfold loopOf, islands.
    destruct (children outerNode) as [|c cs] eqn:Hc.
    + rewrite flattenLoop_simple by assumption. cbn. now rewrite app_nil_r.
    + rewrite flattenLoop_holes by (assumption || congruence).
      now rewrite Hc.
  - now apply flattenLoop_short.
Qed.

(** The loop works off a whole level before it reaches what the level
    enqueued. *)
Lemma flattenLoop_level level polygons later :
  flattenLoop eliminateHoles polygons (level ++ later) =
  if forallb longEnough level then
    flattenLoop eliminateHoles
      (polygons ++ map (loopOf eliminateHoles) level)
      (later ++ flat_map islands level)
  else inl atLeastThreePositions.
Proof.
  revert polygons later.
  induction level as [|node level IH]; intros polygons later;
    cbn [app forallb map flat_map].
  - now rewrite !app_nil_r.
  - rewrite flattenLoop_step.
    destruct (longEnough node); cbn [andb]; [|reflexivity].
    rewrite <- app_assoc, IH, <- !app_assoc. reflexivity.
Qed.

Lemma weights_islands level :
  weights (flat_map islands level) + List.length level <= weights level.
Proof.
  induction level as [|node level IH]; cbn; [lia|].
  rewrite weights_app, (weight_unfold node).
  pose proof (weights_grandchildren (children node)).
  unfold islands at 1. lia.
Qed.

Lemma levelsFrom_nil depth : levelsFrom depth [] = [].
Proof. induction depth as [|d IH]; cbn; [reflexivity|exact IH]. Qed.

(** With as many levels as the queue weighs, the loop is the level-order
    traversal. *)
Lemma flattenLoop_levels depth level polygons :
  weights level <= depth ->
  flattenLoop eliminateHoles polygons level =
  if forallb longEnough (levelsFrom depth level) then
    inr (polygons ++ map (loopOf eliminateHoles) (levelsFrom depth level))
  else inl atLeastThreePositions.
Proof.
  revert level polygons.
  induction depth as [|d IH]; intros level polygons Hw.
  - destruct level as [|node level].
    + cbn. rewrite app_nil_r. apply flattenLoop_done.
    + cbn in Hw. rewrite (weight_unfold node) in Hw. lia.
  - destruct level as [|node level].
    + cbn [levelsFrom flat_map app]. rewrite levelsFrom_nil. cbn.
      rewrite app_nil_r. apply flattenLoop_done.
    + cbn [levelsFrom].
      rewrite <- (app_nil_r (node :: level)) at 1.
      rewrite flattenLoop_level, forallb_app, app_nil_l.
      destruct (forallb longEnough (node :: level)); cbn [andb];
        [|reflexivity].
      rewrite IH.
      * rewrite map_app, app_assoc. reflexivity.
      * pose proof (weights_islands (node :: level)) as Hi.
        cbn [List.length] in Hi. lia.
Qed.

(** [flatten] visits the hierarchy in breadth-first order: it throws when
    the ring of a visited node is too short, and otherwise returns the loops
    of the visited nodes in that order. *)
Lemma flatten_breadthFirst hierarchy :
  flatten eliminateHoles hierarchy =
  if forallb longEnough (breadthFirst hierarchy) then
    inr (map (loopOf eliminateHoles) (breadthFirst hierarchy))
  else inl atLeastThreePositions.
Proof.
  unfold flatten, breadthFirst, Queue.enqueue, Queue.empty. cbn [app].
  rewrite (flattenLoop_levels (weight hierarchy)); [reflexivity|].
  cbn. lia.
Qed.

(** [flatten] throws exactly when the ring of a visited node, the root or
    a polygon nested in a hole, has fewer than three positions. *)
Lemma flatten_throws_iff hierarchy :
  flatten eliminateHoles hierarchy = inl atLeastThreePositions
  <-> exists node,
        In node (breadthFirst hierarchy)
        /\ List.length (positions node) < 3.
Proof.
  rewrite flatten_breadthFirst.
  destruct (forallb longEnough (breadthFirst hierarchy)) eqn:Hall.
  - split; [discriminate|].
    intros (node & Hin & Hlen).
    rewrite forallb_forall in Hall. apply Hall in Hin.
    unfold longEnough in Hin. apply Nat.leb_le in Hin. lia.
  - split; [intros _|reflexivity].
    destruct (forallb_forall longEnough (breadthFirst hierarchy)) as [_ Hall'].
    destruct (existsb (fun n => negb (longEnough n)) (breadthFirst hierarchy))
      eqn:Hex.
    + apply existsb_exists in Hex as (node & Hin & Hshort).
      exists node. split; [exact Hin|].
      unfold longEnough in Hshort. rewrite negb_true_iff in Hshort.
      now apply Nat.leb_gt in Hshort.
    + rewrite Hall' in Hall; [discriminate|].
      intros node Hin.
      destruct (longEnough node) eqn:Hn; [reflexivity|].
      assert (existsb (fun n => negb (longEnough n)) (breadthFirst hierarchy)
              = true); [|congruence].
      apply existsb_exists. exists node. now rewrite Hn.
Qed.

End BreadthFirst.

(** Two holes with an island each, the first island with an island of its
    own two levels down: the islands of both holes come before the deeper
    one, which a depth-first visit would put second. *)
Example flatten_visits_level_by_level
    (eliminateHoles : Ring -> list Ring -> Ring) (a b c d : Cartesian3) :
  let ring (p : Cartesian3) : Ring := [p; p; p] in
  let deep := mkHierarchy (ring d) None in
  let island1 :=
    mkHierarchy (ring b) (Some [mkHierarchy (ring b) (Some [deep])]) in
  let island2 := mkHierarchy (ring c) (Some []) in
  let root :=
    mkHierarchy (ring a)
      (Some [mkHierarchy (ring a) (Some [island1]);
             mkHierarchy (ring a) (Some [island2])]) in
  breadthFirst root = [root; island1; island2; deep]
  /\ flatten eliminateHoles root =
     inr [eliminateHoles (ring a) [ring a; ring a];
          eliminateHoles (ring b) [ring b];
          ring c;
          ring d].
Proof.
  intros ring deep island1 island2 root.
  split; [reflexivity|].
  rewrite flatten_breadthFirst. reflexivity.
Qed.

(** C4: flattening is the breadth-first queue algorithm: the output of
    [flatten] is the loops of the visited nodes in breadth-first order (an
    error when a visited ring is too short).  For the hierarchy
    [{outer:[A,B,C,D], holes:[{outer:[E,F,G]}]}] the output is the single
    polygon [eliminateHoles([A,B,C,D], [[E,F,G]])]; for an outer ring [R]
    with one hole [H] that contains one island [I] (rings of at least three
    points, the island without holes) the output is the two polygons
    [eliminateHoles(R, [H])] and [I], in that order, [I] unchanged. *)
Theorem flatten_breadth_first_scenarios
    (eliminateHoles : Ring -> list Ring -> Ring) (hierarchy : Hierarchy)
    (A B C D E F G : Cartesian3) (R H I : Ring) :
  3 <= List.length R ->
  3 <= List.length I ->
  flatten eliminateHoles hierarchy =
  (if forallb longEnough (breadthFirst hierarchy) then
     inr (map (loopOf eliminateHoles) (breadthFirst hierarchy))
   else inl atLeastThreePositions)
  /\ flatten eliminateHoles
       (mkHierarchy [A; B; C; D] (Some [mkHierarchy [E; F; G] None])) =
     inr [eliminateHoles [A; B; C; D] [[E; F; G]]]
  /\ flatten eliminateHoles
       (mkHierarchy R (Some [mkHierarchy H (Some [mkHierarchy I None])])) =
     inr [eliminateHoles R [H]; I].
Proof.
  intros HR HI. split; [apply flatten_breadthFirst|].
  unfold flatten, Queue.enqueue, Queue.empty. cbn [app].
  split.
  - rewrite flattenLoop_holes; cbn; [|lia|discriminate].
    apply flattenLoop_done.
  - rewrite flattenLoop_holes; cbn; [|exact HR|discriminate].
    rewrite flattenLoop_simple; cbn; [|exact HI|reflexivity].
    apply flattenLoop_done.
Qed.

(** ** One lemma per path through [update] *)

Section UpdatePaths.

Variables (frame : Frame) (p : Polygon) (w : World).

Ltac run_update :=
  unfold run, call, update, rebuild, destroyPrimitive, primitiveDestroy,
    bind, when, self,
    assign, emit, fresh, ret, throw, return_, dirty, passesChecks,
    hasBoundary, snapshot, disposal, built, withMaterial, drawn in *;
  destruct p, w; cbn in *.

(** A failed check throws before anything is assigned. *)
Lemma update_invalid :
  passesChecks p = false ->
  exists e,
    run (update frame) (mkState p w) = (inl e, mkState p w)
    /\ failedCheck p = Some e
    /\ errorKind e = Some InvariantViolation.
Proof.
  unfold failedCheck. run_update.
  destruct ellipsoid0; cbn; [|eexists; repeat split; reflexivity].
  destruct material0; cbn; [|eexists; repeat split; reflexivity].
  intros Hg. rewrite negb_false_iff in Hg. rewrite Hg.
  eexists; repeat split; reflexivity.
Qed.

(** A hidden polygon is left alone. *)
Lemma update_hidden :
  passesChecks p = true ->
  show p = false ->
  run (update frame) (mkState p w) = (inr Undefined, mkState p w).
Proof.
  run_update. intros Hc Hs; subst.
  destruct ellipsoid0, material0; try discriminate.
  cbn in *. rewrite negb_true_iff in Hc. now rewrite Hc.
Qed.

(** Nothing was requested and nothing is held. *)
Lemma update_idle :
  passesChecks p = true ->
  _createPrimitive p = false ->
  _primitive p = None ->
  run (update frame) (mkState p w) = (inr Undefined, mkState p w).
Proof.
  run_update. intros Hc Hn Hp; subst.
  destruct ellipsoid0, material0; try discriminate.
  cbn in *. rewrite negb_true_iff in Hc. rewrite Hc.
  now destruct show0.
Qed.

(** Nothing changed: the held primitive is reused. *)
Lemma update_reuse primitive :
  passesChecks p = true ->
  show p = true ->
  _primitive p = Some primitive ->
  dirty p = false ->
  run (update frame) (mkState p w) =
  (inr Undefined,
   mkState (set__primitive (Some (withMaterial (material p) primitive)) p)
     (mkWorld (nextRef w) (events w ++ drawn frame p primitive))).
Proof.
  run_update. intros Hc Hs Hp Hd; subst.
  destruct ellipsoid0, material0; try discriminate.
  cbn in *. rewrite negb_true_iff in Hc. rewrite Hc.
  rewrite Hd. destruct _createPrimitive0; cbn in *; [discriminate|].
  now rewrite <- app_assoc.
Qed.

(** Something changed but there is no boundary: the held primitive is
    destroyed and nothing is built. *)
Lemma update_clear :
  passesChecks p = true ->
  show p = true ->
  _createPrimitive p || JS.defined (_primitive p) = true ->
  dirty p = true ->
  hasBoundary p = false ->
  run (update frame) (mkState p w) =
  (inr Undefined,
   mkState (set__primitive None (snapshot p))
     (mkWorld (nextRef w) (events w ++ disposal p))).
Proof.
  run_update. intros Hc Hs Hp Hd Hb; subst.
  destruct ellipsoid0, material0; try discriminate.
  cbn in *. rewrite negb_true_iff in Hc. rewrite Hc.
  rewrite Hd.
  destruct _positions0, _polygonHierarchy0; try discriminate.
  destruct _createPrimitive0, _primitive0; cbn in *;
    try discriminate; now rewrite ?app_nil_r.
Qed.

(** Something changed and there is a boundary: the held primitive is
    destroyed, a new one is built from the current fields, and it is given
    the material and updated. *)
Lemma update_rebuild :
  passesChecks p = true ->
  show p = true ->
  _createPrimitive p || JS.defined (_primitive p) = true ->
  dirty p = true ->
  hasBoundary p = true ->
  run (update frame) (mkState p w) =
  (inr Undefined,
   mkState
     (set__primitive
        (Some (withMaterial (material p) (built p (nextRef w))))
        (snapshot p))
     (mkWorld (S (nextRef w))
        (events w ++ disposal p
           ++ NewPrimitive (built p (nextRef w))
           :: drawn frame p (built p (nextRef w))))).
Proof.
  run_update. intros Hc Hs Hp Hd Hb; subst.
  destruct ellipsoid0, material0; try discriminate.
  cbn in *. rewrite negb_true_iff in Hc. rewrite Hc.
  rewrite Hd.
  destruct _createPrimitive0, _primitive0; cbn in *; try discriminate;
    destruct _positions0, _polygonHierarchy0; cbn in *; try discriminate;
    now rewrite <- ?app_assoc.
Qed.

End UpdatePaths.

(** ** Facts about [!==] *)

Lemma SFcompare_refl (v : JS.number) :
  v <> S754_nan -> SFcompare v v = Some Eq.
Proof.
  destruct v as [s|s| |s m e]; cbn; intros Hv; try congruence.
  - now destruct s.
  - rewrite Z.compare_refl.
    change (PosDef.Pos.compare_cont Eq m m) with (Pos.compare m m).
    rewrite Pos.compare_refl. now destruct s.
Qed.

(** A number other than [NaN], or [undefined], is equal to itself. *)
Lemma strictNeq_same (v : JS.value) :
  JS.isNaN v = false -> JS.strictNeq v v = false.
Proof.
  destruct v as [v|]; cbn; [|reflexivity].
  intros Hv. unfold SFeqb. rewrite SFcompare_refl; [reflexivity|].
  intros ->. discriminate.
Qed.

(** [NaN] differs from itself. *)
Lemma strictNeq_NaN : JS.strictNeq (Some JS.NaN) (Some JS.NaN) = true.
Proof. reflexivity. Qed.

(** The two zeros are equal. *)
Lemma strictNeq_zeros : JS.strictNeq (Some JS.zero) (Some JS.negZero) = false.
Proof. reflexivity. Qed.



Lemma ellipsoidStrictNeq_same (e : option Ellipsoid) :
  ellipsoidStrictNeq e e = false.
Proof. destruct e as [e|]; cbn; [|reflexivity]. now rewrite Nat.eqb_refl. Qed.

(** ** Events of a step *)

Lemma skipn_length_app {A} (l l' : list A) : skipn (List.length l) (l ++ l') = l'.
Proof. induction l as [|a l IH]; cbn; [reflexivity|exact IH]. Qed.

Lemma eventsSince_app p p' n n' evs l :
  eventsSince (mkState p (mkWorld n evs)) (mkState p' (mkWorld n' (evs ++ l))) = l.
Proof. unfold eventsSince; cbn. apply skipn_length_app. Qed.

Lemma eventsSince_same s : eventsSince s s = [].
Proof. unfold eventsSince. apply skipn_all. Qed.

Lemma buildRequests_disposal p : buildRequests (disposal p) = [].
Proof. unfold disposal. now destruct (_primitive p). Qed.

Lemma buildRequests_rebuild frame p q :
  buildRequests (disposal p ++ NewPrimitive q :: drawn frame p q) = [q].
Proof.
  unfold buildRequests. rewrite flat_map_app.
  unfold disposal. now destruct (_primitive p).
Qed.

Lemma disposals_rebuild frame p q :
  disposals (disposal p ++ NewPrimitive q :: drawn frame p q) =
  match heldRef p with Some r => [r] | None => [] end.
Proof.
  unfold disposals. rewrite flat_map_app.
  unfold disposal, heldRef. now destruct (_primitive p).
Qed.

(** ** Every call takes one of the paths *)

Lemma dirty_requested p : _createPrimitive p = true -> dirty p = true.
Proof. unfold dirty. now intros ->. Qed.

Lemma update_path frame p w :
  UpdatePath frame p w (run (update frame) (mkState p w)).
Proof.
  destruct (passesChecks p) eqn:Hc.
  2:{ destruct (update_invalid frame p w Hc) as (e & -> & Hf & He).
      now constructor. }
  destruct (show p) eqn:Hs.
  2:{ rewrite update_hidden by assumption. now constructor. }
  destruct (_createPrimitive p || JS.defined (_primitive p)) eqn:Hp.
  - destruct (dirty p) eqn:Hd.
    + destruct (hasBoundary p) eqn:Hb.
      * rewrite update_rebuild by assumption. now constructor.
      * rewrite update_clear by assumption. now constructor.
    + destruct (_primitive p) as [primitive|] eqn:Hprim.
      * rewrite (update_reuse frame p w primitive Hc Hs Hprim Hd). now constructor.
      * cbn in Hp. rewrite orb_false_r in Hp.
        apply dirty_requested in Hp. congruence.
  - apply orb_false_iff in Hp as [Hn Hprim].
    destruct (_primitive p) eqn:E; [discriminate|].
    rewrite update_idle by assumption. now constructor.
Qed.

(** ** Repeated updates *)

Lemma update_atRest frame p w :
  atRest p = true ->
  let s := mkState p w in
  let r := run (update frame) s in
  buildRequests (eventsSince s (snd r)) = []
  /\ disposals (eventsSince s (snd r)) = []
  /\ heldRef (this (snd r)) = heldRef p
  /\ (forall primitive,
        _primitive p = Some primitive ->
        show p = true ->
        passesChecks p = true ->
        fst r = inr Undefined
        /\ materialAssignments (eventsSince s (snd r)) =
           [(primitiveRef primitive, material p)]
        /\ heldMaterial (this (snd r)) = Some (material p)).
Proof.
  intros Hrest s r. subst s r. destruct w as [n evs].
  destruct (update_path frame p (mkWorld n evs))
    as [e Hc Hf He|Hc Hs|Hc Hs Hn Hp|primitive Hc Hs Hp Hd|Hc Hs Hp Hd Hb
        |Hc Hs Hp Hd Hb]; cbn [fst snd this].
  - rewrite eventsSince_same. repeat split; intros; congruence.
  - rewrite eventsSince_same. repeat split; intros; congruence.
  - rewrite eventsSince_same. repeat split; intros; congruence.
  - cbn [nextRef events]. rewrite eventsSince_app.
    repeat split.
    + unfold heldRef. destruct p; cbn in *. now rewrite Hp.
    + rewrite Hp in H. injection H as <-. reflexivity.
    + destruct p; reflexivity.
  - exfalso. unfold atRest in Hrest. rewrite Hc, Hs, Hd in Hrest.
    cbn in Hrest. rewrite orb_false_r in Hrest.
    apply andb_true_iff in Hrest as [H1 H2].
    rewrite negb_true_iff in H1, H2. rewrite H1, H2 in Hp. discriminate.
  - exfalso. unfold atRest in Hrest. rewrite Hc, Hs, Hd in Hrest.
    cbn in Hrest. rewrite orb_false_r in Hrest.
    apply andb_true_iff in Hrest as [H1 H2].
    rewrite negb_true_iff in H1, H2. rewrite H1, H2 in Hp. discriminate.
Qed.

Lemma set_material_same p : set_material (material p) p = p.
Proof. now destruct p. Qed.

Lemma snapshot_clean p q m :
  numbersAreNotNaN p = true ->
  dirty (set_material m (set__primitive q (snapshot p))) = false.
Proof.
  unfold numbersAreNotNaN, dirty, snapshot. destruct p; cbn.
  intros H. apply andb_true_iff in H as [H Ht].
  apply andb_true_iff in H as [Hg Hh].
  rewrite negb_true_iff in Hg, Hh, Ht.
  now rewrite ellipsoidStrictNeq_same, !strictNeq_same.
Qed.

(** After any call of [update], and whatever material is assigned next, the
    polygon is at rest, provided no compared number is [NaN]. *)
Lemma update_settles frame p w m :
  numbersAreNotNaN p = true ->
  passesChecks p = true \/ m = material p ->
  atRest (set_material m (this (snd (run (update frame) (mkState p w))))) = true.
Proof.
  intros Hnan Hm.
  destruct (update_path frame p w)
    as [e Hc Hf He|Hc Hs|Hc Hs Hn Hp|primitive Hc Hs Hp Hd|Hc Hs Hp Hd Hb
        |Hc Hs Hp Hd Hb]; cbn [fst snd this].
  - destruct Hm as [Hm| ->]; [congruence|].
    rewrite set_material_same. unfold atRest. now rewrite Hc.
  - unfold atRest. destruct p; cbn in *. rewrite Hs.
    now rewrite orb_true_r.
  - unfold atRest. destruct p; cbn in *. rewrite Hn, Hp. cbn.
    now rewrite orb_true_r.
  - unfold atRest.
    replace (dirty (set_material m (set__primitive
               (Some (withMaterial (material p) primitive)) p)))
      with (dirty p) by now destruct p.
    rewrite Hd. now rewrite orb_true_r.
  - unfold atRest. rewrite snapshot_clean by assumption.
    now rewrite orb_true_r.
  - unfold atRest. rewrite snapshot_clean by assumption.
    now rewrite orb_true_r.
Qed.

(** Whenever a call of [update] on a shown polygon ends with a primitive
    held, it assigned the polygon's material to that primitive, once. *)
Lemma update_assigns_material frame p w primitive :
  let s := mkState p w in
  let r := run (update frame) s in
  passesChecks p = true ->
  show p = true ->
  _primitive (this (snd r)) = Some primitive ->
  materialAssignments (eventsSince s (snd r)) =
  [(primitiveRef primitive, material p)]
  /\ appearanceMaterial (appearance primitive) = material p.
Proof.
  intros s r. subst s r. destruct w as [n evs].
  destruct (update_path frame p (mkWorld n evs))
    as [e Hc Hf He|Hc Hs|Hc Hs Hn Hp|primitive' Hc Hs Hp Hd|Hc Hs Hp Hd Hb
        |Hc Hs Hp Hd Hb]; cbn [fst snd this nextRef events];
    intros Hc' Hs' Hheld; try congruence.
  - rewrite eventsSince_app.
    destruct p; cbn in *. injection Hheld as <-. now split.
  - destruct p; cbn in *. discriminate.
  - rewrite eventsSince_app.
    assert (E : primitive = withMaterial (material p) (built p n))
      by (destruct p; cbn in *; congruence).
    subst primitive. split; [|reflexivity].
    unfold materialAssignments. rewrite flat_map_app.
    unfold disposal. now destruct (_primitive p).
Qed.

(** An instance: the triangle within a triangle, and the same triangle with
    an island in its hole. *)
Lemma flatten_breadth_first_scenarios_witness :
  let p := mkCartesian3 JS.zero JS.zero JS.zero in
  breadthFirst Sample.triangleInTriangle = [Sample.triangleInTriangle]
  /\ flatten Sample.appendHoles Sample.triangleInTriangle =
     inr [Sample.outerTriangle ++ Sample.innerTriangle]
  /\ flatten Sample.appendHoles
       (mkHierarchy [p; p; p; p] (Some [mkHierarchy [p; p; p] None])) =
     inr [Sample.appendHoles [p; p; p; p] [[p; p; p]]]
  /\ flatten Sample.appendHoles
       (mkHierarchy Sample.outerTriangle
          (Some [mkHierarchy Sample.innerTriangle
                   (Some [mkHierarchy Sample.innerTriangle None])])) =
     inr [Sample.appendHoles Sample.outerTriangle [Sample.innerTriangle];
          Sample.innerTriangle].
Proof.
  intro p. split; [reflexivity|].
  apply (flatten_breadth_first_scenarios Sample.appendHoles
           Sample.triangleInTriangle p p p p p p p); cbn; lia.
Defined.

(** [update] only adds events. *)
Lemma update_extends frame s :
  exists l,
    events (world (snd (run (update frame) s))) = events (world s) ++ l.
Proof.
  destruct s as [p [n evs]].
  destruct (update_path frame p (mkWorld n evs)); cbn [snd world events];
    try (exists []; now rewrite app_nil_r); eexists; reflexivity.
Qed.

Lemma eventsSince_extends s s' l :
  events (world s') = events (world s) ++ l -> eventsSince s s' = l.
Proof. unfold eventsSince. intros ->. apply skipn_length_app. Qed.

(** [update] assigns none of the properties the caller sets. *)
Lemma update_keeps_configuration frame s :
  let s' := snd (run (update frame) s) in
  material (this s') = material (this s)
  /\ numbersAreNotNaN (this s') = numbersAreNotNaN (this s).
Proof.
  destruct s as [p w]. intros s'. subst s'.
  destruct (update_path frame p w); cbn [snd this];
    split; try reflexivity; now destruct p.
Qed.

(** On a polygon at rest whose numbers are not [NaN], any number of calls
    of [update] builds and destroys nothing and keeps the primitive. *)
Lemma updateAll_atRest frames s :
  atRest (this s) = true ->
  numbersAreNotNaN (this s) = true ->
  exists l,
    events (world (updateAll frames s)) = events (world s) ++ l
    /\ buildRequests l = []
    /\ disposals l = []
    /\ heldRef (this (updateAll frames s)) = heldRef (this s).
Proof.
  revert s. induction frames as [|frame later IH]; intros s Hrest Hnan.
  - exists []. cbn. now rewrite app_nil_r.
  - cbn [updateAll].
    destruct s as [p w]. cbn [this] in *.
    destruct (update_atRest frame p w Hrest) as (Hb & Hd & Hh & _).
    destruct (update_extends frame (mkState p w)) as (l1 & Hl1).
    rewrite (eventsSince_extends _ _ _ Hl1) in Hb, Hd.
    destruct (update_keeps_configuration frame (mkState p w)) as (Hm & Hn).
    cbn [this] in Hm, Hn.
    pose proof (update_settles frame p w (material p) Hnan (or_intror eq_refl))
      as Hrest'.
    rewrite <- Hm, set_material_same in Hrest'.
    destruct (IH _ Hrest') as (l2 & Hl2 & Hb2 & Hd2 & Hh2);
      [congruence|].
    exists (l1 ++ l2). rewrite Hl2, Hl1. cbn [world events].
    unfold buildRequests, disposals in *.
    rewrite !flat_map_app, Hb, Hd, Hb2, Hd2, <- app_assoc.
    repeat split. congruence.
Qed.

(** A call of [update] builds at most one primitive. *)
Lemma update_builds_at_most_one frame s :
  List.length (buildRequests (eventsSince s (snd (run (update frame) s)))) <= 1.
Proof.
  destruct s as [p [n evs]].
  destruct (update_path frame p (mkWorld n evs)); cbn [snd nextRef events];
    rewrite ?eventsSince_same, ?eventsSince_app,
      ?buildRequests_disposal, ?buildRequests_rebuild; cbn; lia.
Qed.

(** C5 (amended): let none of granularity, height and texture rotation be
    [NaN].  The first call of [update] builds at most one primitive.  Any
    number of further calls with nothing assigned in between build and
    destroy nothing, and the polygon holds the same primitive throughout.
    One further call after only the material was assigned (to [m]; either
    [m] is the old material or the polygon passed the checks of the first
    call) builds and destroys nothing and keeps the primitive too, and if a
    primitive is held and the polygon is shown and passes the checks, that
    call completes and assigns [m] to the primitive exactly once.  The first
    call likewise assigns the material once whenever it ends with a primitive
    held. *)
Theorem update_again_reuses_primitive
    (s : State) (frame1 frame2 : Frame) (frames : list Frame)
    (m : option Material) :
  numbersAreNotNaN (this s) = true ->
  passesChecks (this s) = true \/ m = material (this s) ->
  let s1 := snd (run (update frame1) s) in
  let sn := updateAll frames s1 in
  let s1' := assigned (set_material m) s1 in
  let r2 := run (update frame2) s1' in
  List.length (buildRequests (eventsSince s s1)) <= 1
  /\ buildRequests (eventsSince s1 sn) = []
  /\ disposals (eventsSince s1 sn) = []
  /\ heldRef (this sn) = heldRef (this s1)
  /\ buildRequests (eventsSince s1' (snd r2)) = []
  /\ disposals (eventsSince s1' (snd r2)) = []
  /\ heldRef (this (snd r2)) = heldRef (this s1)
  /\ (forall primitive,
        _primitive (this s1) = Some primitive ->
        show (this s) = true ->
        passesChecks (this s1') = true ->
        fst r2 = inr Undefined
        /\ materialAssignments (eventsSince s1' (snd r2)) =
           [(primitiveRef primitive, m)]
        /\ heldMaterial (this (snd r2)) = Some m)
  /\ (forall primitive,
        _primitive (this s1) = Some primitive ->
        show (this s) = true ->
        passesChecks (this s) = true ->
        materialAssignments (eventsSince s s1) =
        [(primitiveRef primitive, material (this s))]).
Proof.
  destruct s as [p w]. intros Hnan Hm s1 sn s1' r2. cbn [this] in Hnan, Hm.
  pose proof (update_settles frame1 p w m Hnan Hm) as Hrest.
  fold s1 in Hrest.
  assert (Hshow : show (this s1) = show p).
  { subst s1. destruct (update_path frame1 p w); cbn [snd this];
      try reflexivity; now destruct p. }
  destruct (update_keeps_configuration frame1 (mkState p w)) as (Hmat & Hnum).
  fold s1 in Hmat, Hnum. cbn [this] in Hmat, Hnum.
  assert (Hrest1 : atRest (this s1) = true).
  { pose proof (update_settles frame1 p w (material p) Hnan
                  (or_intror eq_refl)) as H1.
    fold s1 in H1. now rewrite <- Hmat, set_material_same in H1. }
  destruct (updateAll_atRest frames s1 Hrest1) as (l & Hl & Hlb & Hld & Hlh);
    [congruence|].
  fold sn in Hl, Hlh. apply eventsSince_extends in Hl.
  destruct (update_atRest frame2 (set_material m (this s1)) (world s1) Hrest)
    as (Hb & Hd & Hh & Ha).
  change (mkState (set_material m (this s1)) (world s1)) with s1' in *.
  fold r2 in Hb, Hd, Hh, Ha.
  refine (conj _ (conj _ (conj _ (conj Hlh (conj Hb (conj Hd
            (conj _ (conj _ _)))))))).
  - apply update_builds_at_most_one.
  - now rewrite Hl.
  - now rewrite Hl.
  - rewrite Hh. unfold heldRef. now destruct (this s1).
  - intros primitive Hheld Hs Hc. cbn [this] in Hs.
    destruct (Ha primitive) as (H1 & H2 & H3).
    + destruct (this s1); exact Hheld.
    + replace (show (set_material m (this s1))) with (show (this s1))
        by now destruct (this s1).
      congruence.
    + exact Hc.
    + replace (material (set_material m (this s1))) with m in *
        by now destruct (this s1).
      auto.
  - intros primitive Hheld Hs Hc.
    apply (update_assigns_material frame1 p w primitive Hc Hs Hheld).
Qed.

(** An instance: the default polygon with the sample triangle, updated,
    given the stripe material, and updated again. *)
Lemma update_again_reuses_primitive_witness :
  let s1 := snd (run (update Sample.frame) Sample.triangle) in
  let s1' := assigned (set_material (Some Sample.stripes)) s1 in
  let r2 := run (update Sample.frame) s1' in
  numbersAreNotNaN (this Sample.triangle) = true
  /\ List.length (buildRequests (eventsSince Sample.triangle s1)) = 1
  /\ buildRequests (eventsSince s1' (snd r2)) = []
  /\ materialAssignments (eventsSince s1' (snd r2)) =
     [(2, Some Sample.stripes)].
Proof.
  intros s1 s1' r2.
  split; [reflexivity|]. split; [reflexivity|].
  destruct (update_again_reuses_primitive Sample.triangle Sample.frame
              Sample.frame [Sample.frame; Sample.frame]
              (Some Sample.stripes))
    as (_ & _ & _ & _ & Hb & _ & _ & Ha & _);
    [reflexivity|left; reflexivity|].
  split; [exact Hb|].
  edestruct Ha as (_ & H2 & _);
    [reflexivity|reflexivity|reflexivity|exact H2].
Defined.

(** With [NaN] the rebuild repeats: a polygon whose height is [NaN] is
    rebuilt by every call of [update], since [NaN !== NaN]. *)
Lemma update_rebuilds_every_time_when_height_is_NaN :
  let options := mkOptions None None (Some JS.NaN) None None None None None in
  let s :=
    snd (run (setPositions (Some Sample.outerTriangle))
           (Sample.created (Some options))) in
  let s1 := snd (run (update Sample.frame) s) in
  let s2 := snd (run (update Sample.frame) s1) in
  List.length (buildRequests (eventsSince s s1)) = 1
  /\ List.length (buildRequests (eventsSince s1 s2)) = 1
  /\ disposals (eventsSince s1 s2) = [2]
  /\ heldRef (this s1) = Some 2
  /\ heldRef (this s2) = Some 3.
Proof. vm_compute. repeat split. Qed.

(** ** The setters *)

Lemma setPositions_accepts (positions : option Ring) p w :
  match positions with
  | Some array => 3 <= List.length array
  | None => True
  end ->
  run (setPositions positions) (mkState p w) =
  (inr Undefined,
   mkState
     (set__createPrimitive true
        (set__polygonHierarchy None (set__positions positions p)))
     w).
Proof.
  intros Hlen. unfold run, call, setPositions, bind, when.
  destruct positions as [array|]; [|reflexivity].
  apply Nat.ltb_ge in Hlen. now rewrite Hlen.
Qed.

Lemma setPositions_rejects (array : Ring) p w :
  List.length array < 3 ->
  run (setPositions (Some array)) (mkState p w) =
  (inl atLeastThreePositions, mkState p w).
Proof.
  intros Hlen. unfold run, call, setPositions, bind, when.
  apply Nat.ltb_lt in Hlen. now rewrite Hlen.
Qed.

Lemma setPositions_marks (boundary : Ring) (s : State) :
  3 <= List.length boundary ->
  let r := run (setPositions (Some boundary)) s in
  fst r = inr Undefined
  /\ _createPrimitive (this (snd r)) = true
  /\ dirty (this (snd r)) = true
  /\ _positions (this (snd r)) = Some boundary
  /\ _polygonHierarchy (this (snd r)) = None
  /\ passesChecks (this (snd r)) = passesChecks (this s)
  /\ show (this (snd r)) = show (this s).
Proof.
  destruct s as [p w]. intros Hlen r. subst r.
  rewrite (setPositions_accepts (Some boundary)) by exact Hlen.
  cbn [fst snd this]. destruct p; cbn. repeat split.
Qed.

Lemma update_requested_builds_once (boundary : Ring) frame s :
  passesChecks (this s) = true ->
  show (this s) = true ->
  _createPrimitive (this s) = true ->
  _positions (this s) = Some boundary ->
  _polygonHierarchy (this s) = None ->
  buildsOnceFrom boundary frame s.
Proof.
  destruct s as [p [n evs]]. cbn [this]. intros Hc Hs Hn Hp Hh.
  unfold buildsOnceFrom.
  rewrite update_rebuild; try assumption.
  - cbn [snd nextRef events]. rewrite eventsSince_app.
    exists (built p n). rewrite buildRequests_rebuild.
    destruct p; cbn in *. auto.
  - now rewrite Hn.
  - now apply dirty_requested.
  - unfold hasBoundary. now rewrite Hp.
Qed.

(** C6: [setPositions] with at least three positions completes and sets
    [_createPrimitive] whatever was stored before, also when the same
    positions were stored already, so that the dirty check of the next
    [update] succeeds.  On a polygon that is shown and passes the checks of
    [update], that call builds exactly one primitive, from the latest
    positions and no hierarchy; so it does after two calls of [setPositions]
    in a row. *)
Theorem setPositions_requests_one_rebuild
    (s : State) (earlier latest : Ring) (frame : Frame) :
  3 <= List.length earlier ->
  3 <= List.length latest ->
  let once := run (setPositions (Some latest)) s in
  let first := run (setPositions (Some earlier)) s in
  let second := run (setPositions (Some latest)) (snd first) in
  (fst once = inr Undefined
   /\ _createPrimitive (this (snd once)) = true
   /\ dirty (this (snd once)) = true)
  /\ (fst first = inr Undefined
      /\ fst second = inr Undefined
      /\ _createPrimitive (this (snd second)) = true
      /\ dirty (this (snd second)) = true)
  /\ (passesChecks (this s) = true ->
      show (this s) = true ->
      buildsOnceFrom latest frame (snd once)
      /\ buildsOnceFrom latest frame (snd second)).
Proof.
  intros He Hl once first second. subst once first second.
  destruct (setPositions_marks latest s Hl)
    as (H1 & H2 & H3 & H4 & H5 & H6 & H7).
  destruct (setPositions_marks earlier s He)
    as (F1 & _ & _ & _ & _ & F6 & F7).
  destruct (setPositions_marks latest
              (snd (run (setPositions (Some earlier)) s)) Hl)
    as (S1 & S2 & S3 & S4 & S5 & S6 & S7).
  repeat apply conj; try assumption.
  intros Hc Hs. rewrite <- H6 in Hc. rewrite <- H7 in Hs.
  split; apply update_requested_builds_once; congruence.
Qed.

(** An instance: the default polygon with the sample triangle, built by
    one [update], is given the same triangle twice more. *)
Lemma setPositions_requests_one_rebuild_witness :
  let s := snd (run (update Sample.frame) Sample.triangle) in
  let again := snd (run (setPositions (Some Sample.outerTriangle)) s) in
  _positions (this s) = Some Sample.outerTriangle
  /\ _createPrimitive (this s) = false
  /\ _createPrimitive (this again) = true
  /\ buildsOnceFrom Sample.outerTriangle Sample.frame again
  /\ buildsOnceFrom Sample.outerTriangle Sample.frame
       (snd (run (setPositions (Some Sample.outerTriangle)) again)).
Proof.
  intros s again.
  split; [reflexivity|]. split; [reflexivity|].
  destruct (setPositions_requests_one_rebuild s Sample.outerTriangle
              Sample.outerTriangle Sample.frame)
    as ((_ & H1 & _) & _ & H2); [cbn; lia|cbn; lia|].
  split; [exact H1|]. apply H2; reflexivity.
Defined.

(** ** The dirty check *)



(** What [dirty p = false] says, field by field. *)
Lemma dirty_false_inv p :
  dirty p = false ->
  _createPrimitive p = false
  /\ ellipsoidStrictNeq (_ellipsoid p) (ellipsoid p) = false
  /\ JS.strictNeq (_granularity p) (granularity p) = false
  /\ JS.strictNeq (_height p) (height p) = false
  /\ JS.strictNeq (_textureRotationAngle p) (textureRotationAngle p) = false.
Proof.
  unfold dirty. intros H.
  repeat (apply orb_false_iff in H as [H ?]). auto.
Qed.









(** ** Errors of the setters *)

Lemma flattenLoop_error eliminateHoles polygons queue e :
  flattenLoop eliminateHoles polygons queue = inl e ->
  e = atLeastThreePositions.
Proof.
  funelim (flattenLoop eliminateHoles polygons queue); simp flattenLoop.
  - discriminate.
  - cbv zeta.
    destruct (List.length (positions outerNode) <? 3); [congruence|].
    destruct (numChildren outerNode =? 0); auto.
Qed.

Lemma configure_accepts eliminateHoles hierarchy polygons p w :
  flatten eliminateHoles hierarchy = inr polygons ->
  run (configureFromPolygonHierarchy eliminateHoles hierarchy) (mkState p w) =
  (inr Undefined,
   mkState
     (set__createPrimitive true
        (set__polygonHierarchy (Some (Polygons polygons))
           (set__positions None p)))
     w).
Proof.
  intros Hf. unfold run, call, configureFromPolygonHierarchy, bind, local.
  now rewrite Hf.
Qed.

Lemma configure_rejects eliminateHoles hierarchy e p w :
  flatten eliminateHoles hierarchy = inl e ->
  run (configureFromPolygonHierarchy eliminateHoles hierarchy) (mkState p w) =
  (inl e, mkState p w).
Proof.
  intros Hf. unfold run, call, configureFromPolygonHierarchy, bind, local.
  now rewrite Hf.
Qed.

(** C8: when [setPositions] or [configureFromPolygonHierarchy] throws, the
    error is the one for too few positions and the polygon and the world are
    exactly as before the call: the stored positions, the stored polygons
    and [_createPrimitive] are untouched. *)
Theorem setters_change_nothing_when_they_throw
    (eliminateHoles : Ring -> list Ring -> Ring)
    (m : Method) (s : State) (e : Exception) :
  isSetter m = true ->
  fst (run (body eliminateHoles m) s) = inl e ->
  snd (run (body eliminateHoles m) s) = s
  /\ errorKind e = Some ConfigurationError.
Proof.
  destruct s as [p w].
  destruct m as [|positions|hierarchy| | |]; try discriminate; intros _;
    cbn [body].
  - destruct positions as [array|].
    + destruct (Nat.lt_ge_cases (List.length array) 3) as [Hlt|Hge].
      * rewrite setPositions_rejects by exact Hlt. cbn.
        intros [= <-]. now split.
      * rewrite (setPositions_accepts (Some array)) by exact Hge.
        discriminate.
    + rewrite (setPositions_accepts None) by exact I. discriminate.
  - destruct (flatten eliminateHoles hierarchy) as [e'|polygons] eqn:Hf.
    + rewrite (configure_rejects _ _ _ _ _ Hf). cbn.
      intros [= <-]. split; [reflexivity|].
      apply flattenLoop_error in Hf. now subst.
    + rewrite (configure_accepts _ _ _ _ _ Hf). discriminate.
Qed.

(** An instance: two positions on the polygon that holds the sample
    triangle. *)
Lemma setters_change_nothing_when_they_throw_witness :
  let m := SetPositions (Some [mkCartesian3 one one one; mkCartesian3 one one one]) in
  fst (run (body Sample.appendHoles m) Sample.triangle) = inl atLeastThreePositions
  /\ snd (run (body Sample.appendHoles m) Sample.triangle) = Sample.triangle
  /\ _positions (this Sample.triangle) = Some Sample.outerTriangle.
Proof.
  intros m. split; [reflexivity|]. split; [|reflexivity].
  apply (setters_change_nothing_when_they_throw Sample.appendHoles m
           Sample.triangle atLeastThreePositions); reflexivity.
Defined.

(** C10: after a call of [setPositions] or [configureFromPolygonHierarchy]
    that completes, the stored positions and the stored polygons are not
    both defined: [setPositions] leaves no polygons, and
    [configureFromPolygonHierarchy] leaves no positions, so that
    [getPositions] returns [undefined]. *)
Theorem setters_keep_one_boundary_store
    (eliminateHoles : Ring -> list Ring -> Ring)
    (m : Method) (s : State) (r : Returned) :
  isSetter m = true ->
  fst (run (body eliminateHoles m) s) = inr r ->
  let s' := snd (run (body eliminateHoles m) s) in
  JS.defined (_positions (this s')) && JS.defined (_polygonHierarchy (this s'))
  = false
  /\ (forall positions,
        m = SetPositions positions ->
        _positions (this s') = positions
        /\ _polygonHierarchy (this s') = None)
  /\ (forall hierarchy,
        m = ConfigureFromPolygonHierarchy hierarchy ->
        _positions (this s') = None
        /\ run getPositions s' = (inr Undefined, s')).
Proof.
  destruct s as [p w].
  destruct m as [|positions|hierarchy| | |]; try discriminate; intros _;
    cbn [body].
  - assert (Hok : fst (run (setPositions positions) (mkState p w)) = inr r ->
                  run (setPositions positions) (mkState p w) =
                  (inr Undefined,
                   mkState
                     (set__createPrimitive true
                        (set__polygonHierarchy None
                           (set__positions positions p))) w)).
    { destruct positions as [array|].
      - destruct (Nat.lt_ge_cases (List.length array) 3) as [Hlt|Hge].
        + rewrite setPositions_rejects by exact Hlt. discriminate.
        + intros _. now apply (setPositions_accepts (Some array)).
      - intros _. now apply (setPositions_accepts None). }
    intros Hr. rewrite (Hok Hr). cbn [snd this].
    repeat apply conj.
    + destruct p; cbn. apply andb_false_r.
    + intros ? [= <-]. now destruct p.
    + discriminate.
  - destruct (flatten eliminateHoles hierarchy) as [e'|polygons] eqn:Hf.
    + rewrite (configure_rejects _ _ _ _ _ Hf). discriminate.
    + rewrite (configure_accepts _ _ _ _ _ Hf). intros _.
      cbn [snd this]. repeat apply conj.
      * now destruct p.
      * discriminate.
      * intros ? _. split; now destruct p.
Qed.

(** An instance: the triangle within a triangle, configured on the polygon
    that holds the sample triangle as positions. *)
Lemma setters_keep_one_boundary_store_witness :
  let m := ConfigureFromPolygonHierarchy Sample.triangleInTriangle in
  let s' := snd (run (body Sample.appendHoles m) Sample.triangle) in
  _positions (this Sample.triangle) = Some Sample.outerTriangle
  /\ JS.defined (_polygonHierarchy (this s')) = true
  /\ JS.defined (_positions (this s')) && JS.defined (_polygonHierarchy (this s'))
     = false.
Proof.
  intros m s'. split; [reflexivity|]. split; [reflexivity|].
  apply (setters_keep_one_boundary_store Sample.appendHoles m
           Sample.triangle Undefined); reflexivity.
Defined.

(** ** [setPositions] and the cleared state *)

(** Without a boundary and with a primitive requested, [update] builds
    nothing. *)
Lemma update_without_boundary frame p w :
  _createPrimitive p = true ->
  hasBoundary p = false ->
  buildRequests
    (eventsSince (mkState p w) (snd (run (update frame) (mkState p w)))) = [].
Proof.
  intros Hn Hb. destruct w as [n evs].
  destruct (update_path frame p (mkWorld n evs))
    as [e Hc Hf He|Hc Hs|Hc Hs Hn' Hp|primitive Hc Hs Hp Hd|Hc Hs Hp Hd Hb'
        |Hc Hs Hp Hd Hb']; cbn [snd nextRef events];
    try (rewrite eventsSince_same; reflexivity); try congruence.
  - apply dirty_requested in Hn. congruence.
  - rewrite eventsSince_app. apply buildRequests_disposal.
Qed.

(** C3 (amended): [setPositions] throws the error for too few positions
    exactly when its argument is defined and has fewer than three entries,
    the empty array included, and completes otherwise; [undefined] is the
    cleared state: the call completes, no boundary is stored, and the next
    [update] builds nothing. *)
Theorem setPositions_throws_iff_defined_and_short
    (positions : option Ring) (s : State) (frame : Frame) :
  let r := run (setPositions positions) s in
  let cleared := run (setPositions JS.undefined) s in
  (fst r = inl atLeastThreePositions
   <-> exists array, positions = Some array /\ List.length array < 3)
  /\ (fst r = inl atLeastThreePositions \/ fst r = inr Undefined)
  /\ errorKind atLeastThreePositions = Some ConfigurationError
  /\ fst cleared = inr Undefined
  /\ hasBoundary (this (snd cleared)) = false
  /\ buildRequests
       (eventsSince (snd cleared) (snd (run (update frame) (snd cleared))))
     = [].
Proof.
  intros r cleared. subst r cleared. destruct s as [p w].
  rewrite (setPositions_accepts None) by exact I. cbn [fst snd this].
  refine (conj _ (conj _ (conj eq_refl (conj eq_refl (conj _ _))))).
  - destruct positions as [array|].
    + destruct (Nat.lt_ge_cases (List.length array) 3) as [Hlt|Hge].
      * rewrite setPositions_rejects by exact Hlt. split; [|reflexivity].
        intros _. now exists array.
      * rewrite (setPositions_accepts (Some array)) by exact Hge.
        split; [discriminate|]. intros (a & [= <-] & Ha). lia.
    + rewrite (setPositions_accepts None) by exact I.
      split; [discriminate|]. intros (a & Ha & _). discriminate.
  - destruct positions as [array|].
    + destruct (Nat.lt_ge_cases (List.length array) 3) as [Hlt|Hge].
      * rewrite setPositions_rejects by exact Hlt. now left.
      * rewrite (setPositions_accepts (Some array)) by exact Hge. now right.
    + rewrite (setPositions_accepts None) by exact I. now right.
  - now destruct p.
  - apply update_without_boundary; now destruct p.
Qed.

(** An empty array is not the cleared state: it is rejected, and the
    polygon keeps what it had. *)
Lemma setPositions_rejects_the_empty_array :
  run (setPositions (Some [])) Sample.triangle =
  (inl atLeastThreePositions, Sample.triangle).
Proof. reflexivity. Qed.

(** ** Destruction *)

Lemma invoke_destroyed eliminateHoles m s :
  destroyed (this s) = true ->
  invoke eliminateHoles m s = (afterDestroy m, s).
Proof. unfold invoke. intros ->. now destruct m. Qed.

Lemma invokeAll_destroyed eliminateHoles ms s :
  destroyed (this s) = true ->
  invokeAll eliminateHoles ms s = (map afterDestroy ms, s).
Proof.
  intros Hd. induction ms as [|m ms IH]; cbn; [reflexivity|].
  now rewrite invoke_destroyed, IH.
Qed.

Lemma invoke_destroy eliminateHoles p w :
  destroyed p = false ->
  invoke eliminateHoles Destroy (mkState p w) =
  (inr Undefined,
   mkState (set_destroyed true (set__primitive None p))
     (mkWorld (nextRef w) (events w ++ disposal p))).
Proof.
  unfold invoke. cbn [this]. intros ->.
  unfold call, body, destroy, destroyPrimitive, primitiveDestroy,
    destroyObject, bind, self, assign, emit, ret, return_, disposal.
  destruct w as [n evs], p; cbn.
  destruct _primitive0; cbn; [reflexivity|now rewrite app_nil_r].
Qed.

(** C9: [destroy()] on a live polygon returns [undefined], destroys the held
    primitive once (and nothing when none is held), leaves no primitive and
    marks the polygon destroyed; from then on, in any sequence of calls,
    [isDestroyed] answers [true] and every other method throws the error of
    a destroyed object, changing nothing.  Before, [isDestroyed] answers
    [false]. *)
Theorem destroy_then_every_method_throws
    (eliminateHoles : Ring -> list Ring -> Ring)
    (s : State) (ms : list Method) :
  destroyed (this s) = false ->
  let r := invoke eliminateHoles Destroy s in
  fst r = inr Undefined
  /\ eventsSince s (snd r) = disposal (this s)
  /\ disposals (disposal (this s)) =
     match heldRef (this s) with Some held => [held] | None => [] end
  /\ _primitive (this (snd r)) = None
  /\ destroyed (this (snd r)) = true
  /\ invokeAll eliminateHoles ms (snd r) = (map afterDestroy ms, snd r)
  /\ (forall m, m <> IsDestroyed -> afterDestroy m = inl objectWasDestroyed)
  /\ errorKind objectWasDestroyed = Some UseAfterDestroy
  /\ fst (invoke eliminateHoles IsDestroyed s) = inr (Boolean false).
Proof.
  destruct s as [p [n evs]]. intros Hlive r. subst r. cbn [this] in *.
  rewrite invoke_destroy by exact Hlive. cbn [fst snd this nextRef events].
  rewrite eventsSince_app.
  repeat apply conj; try reflexivity.
  - unfold disposal, heldRef. now destruct (_primitive p).
  - now destruct p.
  - now destruct p.
  - apply invokeAll_destroyed. now destruct p.
  - intros m Hm. now destruct m.
  - unfold invoke. cbn [this]. now rewrite Hlive.
Qed.

(** An instance: the polygon with the sample triangle, updated once and
    destroyed, then called five times. *)
Lemma destroy_then_every_method_throws_witness :
  let s := snd (run (update Sample.frame) Sample.triangle) in
  let s' := snd (invoke Sample.appendHoles Destroy s) in
  heldRef (this s) = Some 2
  /\ eventsSince s s' = [PrimitiveDestroy 2]
  /\ fst (invokeAll Sample.appendHoles
            [Update Sample.frame; IsDestroyed; Destroy; GetPositions;
             SetPositions None] s') =
     [inl objectWasDestroyed; inr (Boolean true); inl objectWasDestroyed;
      inl objectWasDestroyed; inl objectWasDestroyed].
Proof.
  intros s s'. split; [reflexivity|].
  destruct (destroy_then_every_method_throws Sample.appendHoles s
              [Update Sample.frame; IsDestroyed; Destroy; GetPositions;
               SetPositions None])
    as (_ & He & _ & _ & _ & Hall & _); [reflexivity|].
  split; [exact He|].
  fold s' in Hall. now rewrite Hall.
Defined.

(** ** Hole rings and a granularity of zero *)

(** C1: the ring of a hole is handed to [eliminateHoles] without a check.  A
    triangle with a hole of two points is flattened without an error, and
    [configureFromPolygonHierarchy] stores the result. *)
Theorem flatten_accepts_a_hole_of_two_points
    (eliminateHoles : Ring -> list Ring -> Ring)
    (A B C E F : Cartesian3) (s : State) :
  let hierarchy :=
    mkHierarchy [A; B; C] (Some [mkHierarchy [E; F] None]) in
  flatten eliminateHoles hierarchy = inr [eliminateHoles [A; B; C] [[E; F]]]
  /\ fst (run (configureFromPolygonHierarchy eliminateHoles hierarchy) s) =
     inr Undefined
  /\ _polygonHierarchy
       (this (snd (run (configureFromPolygonHierarchy eliminateHoles hierarchy)
                     s))) =
     Some (Polygons [eliminateHoles [A; B; C] [[E; F]]]).
Proof.
  intros hierarchy.
  assert (Hf : flatten eliminateHoles hierarchy =
               inr [eliminateHoles [A; B; C] [[E; F]]]).
  { unfold flatten, Queue.enqueue, Queue.empty, hierarchy. cbn [app].
    rewrite flattenLoop_holes; cbn; [|lia|discriminate].
    apply flattenLoop_done. }
  split; [exact Hf|]. destruct s as [p w].
  rewrite (configure_accepts _ _ _ _ _ Hf). cbn [fst snd this].
  split; [reflexivity|now destruct p].
Qed.

(** C2: a granularity of zero passes the check of line 264, whose message
    asks for a granularity greater than zero: [update] does not throw, and
    on the default polygon with the sample triangle it builds the primitive
    with that granularity. *)
Theorem update_accepts_granularity_zero
    (frame : Frame) (p : Polygon) (w : World) :
  let zeroGranularity :=
    mkOptions None (Some JS.zero) None None None None None None in
  let s :=
    snd (run (setPositions (Some Sample.outerTriangle))
           (Sample.created (Some zeroGranularity))) in
  fst (run (update frame) (mkState (set_granularity (Some JS.zero) p) w))
  <> inl granularityMustBePositive
  /\ granularity (this s) = Some JS.zero
  /\ fst (run (update frame) s) = inr Undefined
  /\ map (fun q => geometryGranularity (geometryInstances q))
       (buildRequests (eventsSince s (snd (run (update frame) s)))) =
     [Some JS.zero].
Proof.
  intros zeroGranularity s. split.
  - destruct (update_path frame (set_granularity (Some JS.zero) p) w)
      as [e Hc Hf He| | | | |]; cbn [fst]; try discriminate.
    intros [= ->]. unfold failedCheck in Hf.
    destruct p; cbn in Hf.
    destruct ellipsoid0, material0; cbv in Hf; discriminate.
  - repeat split.
Qed.

(** * The whole object

    The constructor, [getPositions], the frame of each method, and what a
    polygon does to its primitives over any sequence of uses. *)

(** The properties a caller assigns, lines 60-109. *)
Definition configuration (p : Polygon) :=
  (ellipsoid p, granularity p, height p, textureRotationAngle p, show p,
   material p).

(** The snapshot of lines 61-79 and 284-287. *)
Definition shadow (p : Polygon) :=
  (_ellipsoid p, _granularity p, _height p, _textureRotationAngle p).

(** The two boundary stores, lines 111-112. *)
Definition boundary (p : Polygon) := (_positions p, _polygonHierarchy p).

(** [new Polygon(options)] as a state. *)
Definition constructed (WGS84 : Ellipsoid) (oneDegree : JS.number)
    (options : option Options) (w : World) : State :=
  mkState (fst (newPolygon WGS84 oneDegree options w))
    (snd (newPolygon WGS84 oneDegree options w)).

(** ** Errors of [update] *)

(** X2: [update] throws the error of the first failing check of lines
    256-266 and no other error: the ellipsoid error exactly when the
    ellipsoid is undefined, the material error exactly when the ellipsoid is
    defined and the material is not, the granularity error exactly when both
    are defined and the granularity is below zero.  Whenever it throws,
    nothing was assigned and no collaborator was called; it never fails on
    an undefined primitive at line 316, in any state. *)
Theorem update_throws_only_its_checks (frame : Frame) (s : State) :
  let r := run (update frame) s in
  (fst r = inl ellipsoidMustBeDefined <-> ellipsoid (this s) = None)
  /\ (fst r = inl materialMustBeDefined
      <-> ellipsoid (this s) <> None /\ material (this s) = None)
  /\ (fst r = inl granularityMustBePositive
      <-> ellipsoid (this s) <> None /\ material (this s) <> None
          /\ JS.lt (granularity (this s)) (Some JS.zero) = true)
  /\ (forall e, fst r = inl e ->
        snd r = s /\ errorKind e = Some InvariantViolation /\ e <> TypeError).
Proof.
  intros r. subst r. destruct s as [p w]. cbn [this].
  assert (Hfail : forall e, failedCheck p = Some e ->
            (e = ellipsoidMustBeDefined <-> ellipsoid p = None)
            /\ (e = materialMustBeDefined
                <-> ellipsoid p <> None /\ material p = None)
            /\ (e = granularityMustBePositive
                <-> ellipsoid p <> None /\ material p <> None
                    /\ JS.lt (granularity p) (Some JS.zero) = true)).
  { intros e. unfold failedCheck.
    destruct (ellipsoid p) as [el|]; cbn [JS.defined negb].
    2:{ intros [= <-]. repeat split; try discriminate; try reflexivity;
          intros H; exfalso; now apply (proj1 H). }
    destruct (material p) as [ma|]; cbn [JS.defined negb].
    2:{ intros [= <-]. repeat split; try discriminate; try reflexivity;
          intros H; exfalso; now apply (proj1 (proj2 H)). }
    destruct (JS.lt (granularity p) (Some JS.zero)); [|discriminate].
    intros [= <-]. repeat split; try discriminate; try reflexivity;
      intros H; exfalso; destruct H as [_ H]; discriminate. }
  assert (Hpass : passesChecks p = true ->
            ellipsoid p <> None /\ material p <> None
            /\ JS.lt (granularity p) (Some JS.zero) = false).
  { unfold passesChecks.
    destruct (ellipsoid p), (material p); cbn; try discriminate.
    rewrite negb_true_iff. repeat split; try discriminate. assumption. }
  destruct (update_path frame p w)
    as [e Hc Hf He|Hc Hs|Hc Hs Hn Hp|primitive Hc Hs Hp Hd|Hc Hs Hp Hd Hb
        |Hc Hs Hp Hd Hb]; cbn [fst snd].
  - destruct (Hfail e Hf) as (H1 & H2 & H3).
    repeat apply conj.
    + intros [= E]. now apply H1.
    + intros H. f_equal. now apply H1.
    + intros [= E]. now apply H2.
    + intros H. f_equal. now apply H2.
    + intros [= E]. now apply H3.
    + intros H. f_equal. now apply H3.
    + intros e' [= <-]. repeat split; [exact He|].
      intros E. rewrite E in He. discriminate.
  - destruct (Hpass Hc) as (Pe & Pm & Pg).
    repeat apply conj; try discriminate; intros H; exfalso;
      try (destruct H as (_ & H)); try (destruct H as (_ & H)); congruence.
  - destruct (Hpass Hc) as (Pe & Pm & Pg).
    repeat apply conj; try discriminate; intros H; exfalso;
      try (destruct H as (_ & H)); try (destruct H as (_ & H)); congruence.
  - destruct (Hpass Hc) as (Pe & Pm & Pg).
    repeat apply conj; try discriminate; intros H; exfalso;
      try (destruct H as (_ & H)); try (destruct H as (_ & H)); congruence.
  - destruct (Hpass Hc) as (Pe & Pm & Pg).
    repeat apply conj; try discriminate; intros H; exfalso;
      try (destruct H as (_ & H)); try (destruct H as (_ & H)); congruence.
  - destruct (Hpass Hc) as (Pe & Pm & Pg).
    repeat apply conj; try discriminate; intros H; exfalso;
      try (destruct H as (_ & H)); try (destruct H as (_ & H)); congruence.
Qed.

(** ** The constructor *)

Lemma constructed_fields WGS84 oneDegree options w :
  let p := this (constructed WGS84 oneDegree options w) in
  JS.defined (ellipsoid p) = true
  /\ JS.defined (material p) = true
  /\ _createPrimitive p = false
  /\ _primitive p = None
  /\ destroyed p = false.
Proof. repeat split. Qed.

(** A granularity below zero on a polygon with ellipsoid and material. *)
Lemma update_negative_granularity frame p w :
  JS.defined (ellipsoid p) = true ->
  JS.defined (material p) = true ->
  JS.lt (granularity p) (Some JS.zero) = true ->
  run (update frame) (mkState p w) =
  (inl granularityMustBePositive, mkState p w).
Proof.
  intros He Hm Hg.
  destruct (update_path frame p w)
    as [e Hc Hf _|Hc Hs|Hc Hs Hn Hp|primitive Hc Hs Hp Hd|Hc Hs Hp Hd Hb
        |Hc Hs Hp Hd Hb];
    try (unfold passesChecks in Hc; rewrite He, Hm, Hg in Hc; discriminate).
  unfold failedCheck in Hf. rewrite He, Hm, Hg in Hf. cbn in Hf.
  now injection Hf as <-.
Qed.

(** X1: a polygon made by the constructor is not drawn, whatever the
    options, also when they carry positions or a hierarchy: the constructor
    leaves [_createPrimitive] false (line 113), so [update] returns at line
    274, or throws when the granularity option is below zero, without
    assigning anything or calling a collaborator; any number of updates
    leaves the polygon as constructed.  The ellipsoid and the material are
    always defined after the constructor. *)
Theorem constructed_polygon_is_not_drawn
    (WGS84 : Ellipsoid) (oneDegree : JS.number) (options : option Options)
    (w : World) (frame : Frame) (frames : list Frame) :
  let s := constructed WGS84 oneDegree options w in
  let r := run (update frame) s in
  snd r = s
  /\ fst r =
     (if JS.lt (granularity (this s)) (Some JS.zero)
      then inl granularityMustBePositive else inr Undefined)
  /\ updateAll frames s = s
  /\ _positions (this s) =
     optionPositions (defaultValue options EMPTY_OBJECT)
  /\ JS.defined (ellipsoid (this s)) = true
  /\ JS.defined (material (this s)) = true.
Proof.
  intros s r.
  destruct (constructed_fields WGS84 oneDegree options w)
    as (He & Hm & Hn & Hp & _).
  fold s in He, Hm, Hn, Hp.
  assert (Hone : forall f,
            run (update f) s =
            (if JS.lt (granularity (this s)) (Some JS.zero)
             then inl granularityMustBePositive else inr Undefined, s)).
  { intros f. destruct s as [p w']. cbn [this] in *.
    destruct (JS.lt (granularity p) (Some JS.zero)) eqn:Hlt.
    - now apply update_negative_granularity.
    - apply update_idle; try assumption.
      unfold passesChecks. now rewrite He, Hm, Hlt. }
  subst r. rewrite Hone. cbn [fst snd].
  repeat apply conj; try reflexivity; try assumption.
  induction frames as [|f fs IH]; cbn [updateAll]; [reflexivity|].
  now rewrite Hone.
Qed.

(** ** [getPositions] *)

(** What [getPositions] returns for the stored positions. *)
Definition returnedPositions (positions : option Ring) : Returned :=
  match positions with
  | Some array => Positions array
  | None => Undefined
  end.

Lemma getPositions_reads s :
  run getPositions s = (inr (returnedPositions (_positions (this s))), s).
Proof.
  destruct s as [p w].
  unfold run, call, getPositions, bind, self, return_. cbn.
  now destruct (_positions p).
Qed.

(** ** What each method leaves alone *)

(** X4: the setters leave the primitive alone.  Whether they complete or
    throw, [setPositions] and [configureFromPolygonHierarchy] make no call
    on a primitive (none is built, destroyed or drawn, no material is
    assigned), keep the held primitive, and assign neither a property of the
    caller nor the snapshot nor the destroyed mark. *)
Theorem setters_leave_the_primitive_alone
    (eliminateHoles : Ring -> list Ring -> Ring)
    (positions : option Ring) (hierarchy : Hierarchy) (s : State) :
  let untouched (s' : State) :=
    events (world s') = events (world s)
    /\ _primitive (this s') = _primitive (this s)
    /\ configuration (this s') = configuration (this s)
    /\ shadow (this s') = shadow (this s)
    /\ destroyed (this s') = destroyed (this s) in
  untouched (snd (run (setPositions positions) s))
  /\ untouched
       (snd (run (configureFromPolygonHierarchy eliminateHoles hierarchy) s)).
Proof.
  intros untouched. subst untouched. cbv beta. destruct s as [p w]. split.
  - destruct positions as [array|].
    + destruct (Nat.lt_ge_cases (List.length array) 3) as [Hlt|Hge].
      * rewrite setPositions_rejects by exact Hlt. repeat split.
      * rewrite (setPositions_accepts (Some array)) by exact Hge.
        destruct p. repeat split.
    + rewrite (setPositions_accepts None) by exact I.
      destruct p. repeat split.
  - destruct (flatten eliminateHoles hierarchy) as [e|polygons] eqn:Hf.
    + rewrite (configure_rejects _ _ _ _ _ Hf). repeat split.
    + rewrite (configure_accepts _ _ _ _ _ Hf). destruct p. repeat split.
Qed.

(** X7: [update] assigns only the snapshot, [_createPrimitive] and
    [_primitive].  In every state and on every path it keeps the properties
    of the caller, the stored positions and polygons and the destroyed mark;
    it only adds to the calls made on primitives, and among the calls it
    adds at most one builds a primitive and at most one destroys one. *)
Theorem update_keeps_what_the_caller_set (frame : Frame) (s : State) :
  let s' := snd (run (update frame) s) in
  configuration (this s') = configuration (this s)
  /\ boundary (this s') = boundary (this s)
  /\ destroyed (this s') = destroyed (this s)
  /\ (exists added,
        events (world s') = events (world s) ++ added
        /\ List.length (buildRequests added) <= 1
        /\ List.length (disposals added) <= 1).
Proof.
  intros s'. subst s'. destruct s as [p [n evs]].
  destruct (update_path frame p (mkWorld n evs));
    cbn [snd this world nextRef events];
    (repeat apply conj;
     [now destruct p|now destruct p|now destruct p|]).
  - exists []. rewrite app_nil_r. cbn. auto.
  - exists []. rewrite app_nil_r. cbn. auto.
  - exists []. rewrite app_nil_r. cbn. auto.
  - eexists. split; [reflexivity|]. cbn. auto.
  - eexists. split; [reflexivity|].
    rewrite buildRequests_disposal. unfold disposal.
    destruct (_primitive p); cbn; auto.
  - eexists. split; [reflexivity|].
    rewrite buildRequests_rebuild, disposals_rebuild.
    destruct (heldRef p); cbn; auto.
Qed.

(** ** More on the flattening *)

Lemma levelsFrom_length depth level :
  List.length (levelsFrom depth level) <= weights level.
Proof.
  revert level. induction depth as [|d IH]; intros level; cbn [levelsFrom].
  - cbn. lia.
  - rewrite length_app.
    pose proof (IH (flat_map islands level)).
    pose proof (weights_islands level). lia.
Qed.

Lemma breadthFirst_root hierarchy :
  exists below, breadthFirst hierarchy = hierarchy :: below.
Proof.
  unfold breadthFirst. rewrite (weight_unfold hierarchy). cbn [levelsFrom app].
  eexists. reflexivity.
Qed.

(** X8: when the flattening completes, the polygons array has one entry per
    visited node, the root's first: at least one entry and at most as many
    as the hierarchy has nodes, and exactly one, the root's, when no hole of
    the root carries holes of its own. *)
Theorem flatten_one_polygon_per_visited_node
    (eliminateHoles : Ring -> list Ring -> Ring)
    (hierarchy : Hierarchy) (polygons : list Ring) :
  flatten eliminateHoles hierarchy = inr polygons ->
  List.length polygons = List.length (breadthFirst hierarchy)
  /\ 1 <= List.length polygons <= weight hierarchy
  /\ (exists others, polygons = loopOf eliminateHoles hierarchy :: others)
  /\ (islands hierarchy = [] ->
      polygons = [loopOf eliminateHoles hierarchy]).
Proof.
  rewrite flatten_breadthFirst.
  destruct (forallb longEnough (breadthFirst hierarchy)); [|discriminate].
  intros [= <-]. rewrite length_map.
  destruct (breadthFirst_root hierarchy) as (below & Hroot).
  pose proof (levelsFrom_length (weight hierarchy) [hierarchy]) as Hlen.
  fold (breadthFirst hierarchy) in Hlen. cbn [weights] in Hlen.
  repeat apply conj.
  - reflexivity.
  - rewrite Hroot. cbn. lia.
  - lia.
  - rewrite Hroot. cbn [map]. eexists. reflexivity.
  - intros Hnone. unfold breadthFirst. rewrite (weight_unfold hierarchy).
    cbn [levelsFrom flat_map app]. rewrite Hnone. cbn [app].
    now rewrite levelsFrom_nil.
Qed.

(** An instance: the triangle within a triangle gives one polygon. *)
Lemma flatten_one_polygon_per_visited_node_witness :
  weight Sample.triangleInTriangle = 2
  /\ List.length [Sample.outerTriangle ++ Sample.innerTriangle] = 1
  /\ 1 <= 1 <= weight Sample.triangleInTriangle.
Proof.
  split; [reflexivity|].
  destruct (flatten_one_polygon_per_visited_node Sample.appendHoles
              Sample.triangleInTriangle
              [Sample.outerTriangle ++ Sample.innerTriangle] eq_refl)
    as (_ & H & _).
  split; [reflexivity|exact H].
Defined.

(** X9: what the flattening asks of [eliminateHoles].  Whether it throws
    does not depend on the collaborator, and it never calls the collaborator
    with an empty array of holes: two collaborators that agree whenever the
    array of holes is not empty give the same result. *)
Theorem flatten_calls_eliminateHoles_only_with_holes
    (eliminateHoles1 eliminateHoles2 : Ring -> list Ring -> Ring)
    (hierarchy : Hierarchy) :
  (forall outerRing holeRings,
      holeRings <> [] ->
      eliminateHoles1 outerRing holeRings =
      eliminateHoles2 outerRing holeRings) ->
  flatten eliminateHoles1 hierarchy = flatten eliminateHoles2 hierarchy.
Proof.
  intros Hagree. rewrite !flatten_breadthFirst.
  destruct (forallb longEnough (breadthFirst hierarchy)); [|reflexivity].
  f_equal. apply map_ext. intros node. unfold loopOf.
  destruct (children node) as [|c cs]; [reflexivity|].
  apply Hagree. discriminate.
Qed.

(** An instance: a collaborator that returns nothing for no holes. *)
Lemma flatten_calls_eliminateHoles_only_with_holes_witness :
  let other (outerRing : Ring) (holeRings : list Ring) : Ring :=
    match holeRings with
    | [] => []
    | _ => Sample.appendHoles outerRing holeRings
    end in
  other Sample.outerTriangle [] <> Sample.appendHoles Sample.outerTriangle []
  /\ flatten Sample.appendHoles Sample.triangleInTriangle =
     flatten other Sample.triangleInTriangle.
Proof.
  intros other. split; [discriminate|].
  apply (flatten_calls_eliminateHoles_only_with_holes Sample.appendHoles other).
  intros outerRing [|h hs] Hne; [congruence|reflexivity].
Defined.

(** [holes : []] replaced by no [holes] property, throughout a hierarchy. *)
Fixpoint withoutEmptyHoles (h : Hierarchy) : Hierarchy :=
  match h with
  | mkHierarchy ring None => mkHierarchy ring None
  | mkHierarchy ring (Some []) => mkHierarchy ring None
  | mkHierarchy ring (Some (c :: cs)) =>
      mkHierarchy ring (Some (map withoutEmptyHoles (c :: cs)))
  end.

Lemma withoutEmptyHoles_positions h :
  positions (withoutEmptyHoles h) = positions h.
Proof. now destruct h as [ring [[|c cs]|]]. Qed.

Lemma withoutEmptyHoles_children h :
  children (withoutEmptyHoles h) = map withoutEmptyHoles (children h).
Proof. now destruct h as [ring [[|c cs]|]]. Qed.

Lemma withoutEmptyHoles_islands level :
  flat_map islands (map withoutEmptyHoles level) =
  map withoutEmptyHoles (flat_map islands level).
Proof.
  assert (Hc : forall l,
            flat_map children (map withoutEmptyHoles l) =
            map withoutEmptyHoles (flat_map children l)).
  { induction l as [|c l IH]; cbn [map flat_map]; [reflexivity|].
    now rewrite withoutEmptyHoles_children, IH, map_app. }
  induction level as [|n level IH]; cbn [map flat_map]; [reflexivity|].
  unfold islands at 1. rewrite withoutEmptyHoles_children, Hc, IH, map_app.
  reflexivity.
Qed.

Lemma withoutEmptyHoles_levels depth level :
  levelsFrom depth (map withoutEmptyHoles level) =
  map withoutEmptyHoles (levelsFrom depth level).
Proof.
  revert level. induction depth as [|d IH]; intros level; cbn [levelsFrom];
    [reflexivity|].
  now rewrite withoutEmptyHoles_islands, IH, map_app.
Qed.

Lemma forallb_map_same {A} (f : A -> bool) (g : A -> A) (l : list A) :
  (forall a, f (g a) = f a) -> forallb f (map g l) = forallb f l.
Proof.
  intros H. induction l as [|a l IH]; cbn; [reflexivity|].
  now rewrite H, IH.
Qed.

(** X12: an empty [holes] array counts as no holes, at every depth: the
    flattening of a hierarchy, its result or its error, is the same with
    every empty [holes] array removed (lines 218 and 229-232 test the array
    and then its length). *)
Theorem flatten_ignores_empty_holes_arrays
    (eliminateHoles : Ring -> list Ring -> Ring) (hierarchy : Hierarchy) :
  flatten eliminateHoles (withoutEmptyHoles hierarchy) =
  flatten eliminateHoles hierarchy.
Proof.
  unfold flatten, Queue.enqueue, Queue.empty. cbn [app].
  set (depth := weight hierarchy + weight (withoutEmptyHoles hierarchy)).
  rewrite (flattenLoop_levels eliminateHoles depth
             [withoutEmptyHoles hierarchy]) by (cbn; lia).
  rewrite (flattenLoop_levels eliminateHoles depth [hierarchy])
    by (cbn; lia).
  change [withoutEmptyHoles hierarchy] with (map withoutEmptyHoles [hierarchy]).
  rewrite withoutEmptyHoles_levels, map_map.
  assert (Hlong : forall n, longEnough (withoutEmptyHoles n) = longEnough n).
  { intros n. unfold longEnough. now rewrite withoutEmptyHoles_positions. }
  assert (Hloop : forall n,
            loopOf eliminateHoles (withoutEmptyHoles n) =
            loopOf eliminateHoles n).
  { intros n. unfold loopOf.
    rewrite withoutEmptyHoles_children, withoutEmptyHoles_positions.
    destruct (children n) as [|c cs]; [reflexivity|]. cbn [map].
    now rewrite !withoutEmptyHoles_positions, map_map,
      (map_ext _ _ withoutEmptyHoles_positions). }
  rewrite (forallb_map_same _ _ _ Hlong), (map_ext _ _ Hloop). reflexivity.
Qed.

(** ** Setters followed by [update] *)

(** The reference of the held primitive as a list. *)
Definition heldList (p : Polygon) : list Ref :=
  match heldRef p with
  | Some r => [r]
  | None => []
  end.

Lemma disposals_disposal p : disposals (disposal p) = heldList p.
Proof. unfold disposal, heldList, heldRef. now destruct (_primitive p). Qed.

(** X5: [configureFromPolygonHierarchy] followed by [update].  When the
    flattening completes with [polygons] on a polygon that is shown and
    passes the checks, the next [update] completes, destroys the primitive
    held before (if any), and builds exactly one primitive, from no flat
    positions and exactly those polygons, the loops of the visited nodes in
    breadth-first order; the polygon then holds that primitive and requests
    no further one. *)
Theorem configure_then_update_builds_the_polygons
    (eliminateHoles : Ring -> list Ring -> Ring)
    (hierarchy : Hierarchy) (polygons : list Ring)
    (s : State) (frame : Frame) :
  passesChecks (this s) = true ->
  show (this s) = true ->
  flatten eliminateHoles hierarchy = inr polygons ->
  let s1 :=
    snd (run (configureFromPolygonHierarchy eliminateHoles hierarchy) s) in
  let r := run (update frame) s1 in
  fst r = inr Undefined
  /\ polygons = map (loopOf eliminateHoles) (breadthFirst hierarchy)
  /\ disposals (eventsSince s1 (snd r)) = heldList (this s)
  /\ _createPrimitive (this (snd r)) = false
  /\ exists primitive,
       buildRequests (eventsSince s1 (snd r)) = [primitive]
       /\ geometryPositions (geometryInstances primitive) = None
       /\ geometryPolygonHierarchy (geometryInstances primitive) =
          Some (Polygons polygons)
       /\ heldRef (this (snd r)) = Some (primitiveRef primitive).
Proof.
  destruct s as [p [n evs]]. intros Hc Hs Hf s1 r. subst r s1.
  cbn [this] in Hc, Hs.
  rewrite (configure_accepts _ _ _ _ _ Hf). cbn [snd].
  set (p1 := set__createPrimitive true _).
  assert (Hc1 : passesChecks p1 = true) by (subst p1; now destruct p).
  assert (Hs1 : show p1 = true) by (subst p1; now destruct p).
  assert (Hn1 : _createPrimitive p1 = true) by (subst p1; now destruct p).
  rewrite update_rebuild; try assumption.
  - cbn [fst snd this nextRef events]. rewrite eventsSince_app.
    rewrite buildRequests_rebuild, disposals_rebuild.
    repeat apply conj.
    + reflexivity.
    + rewrite flatten_breadthFirst in Hf.
      destruct (forallb longEnough (breadthFirst hierarchy));
        [now injection Hf as <-|discriminate].
    + subst p1. unfold heldList. now destruct p.
    + subst p1. now destruct p.
    + exists (built p1 n). subst p1. destruct p. repeat split.
  - now rewrite Hn1.
  - now apply dirty_requested.
  - subst p1. now destruct p.
Qed.

(** An instance: the triangle within a triangle on the polygon that holds
    the sample triangle, built by one [update]. *)
Lemma configure_then_update_builds_the_polygons_witness :
  let s := snd (run (update Sample.frame) Sample.triangle) in
  let s1 :=
    snd (run (configureFromPolygonHierarchy Sample.appendHoles
                Sample.triangleInTriangle) s) in
  let r := run (update Sample.frame) s1 in
  heldList (this s) = [2]
  /\ disposals (eventsSince s1 (snd r)) = [2]
  /\ heldRef (this (snd r)) = Some 3.
Proof.
  intros s s1 r. split; [reflexivity|].
  destruct (configure_then_update_builds_the_polygons Sample.appendHoles
              Sample.triangleInTriangle
              [Sample.outerTriangle ++ Sample.innerTriangle] s Sample.frame)
    as (_ & _ & Hd & _ & _); [reflexivity|reflexivity|reflexivity|].
  split; [exact Hd|reflexivity].
Defined.

(** X6: clearing releases the primitive.  After [setPositions(undefined)] on
    a polygon that is shown and passes the checks, the next [update]
    completes, destroys the held primitive (if any) and does nothing else,
    and leaves the polygon without a primitive; every later [update] leaves
    polygon and world as they are. *)
Theorem clearing_releases_the_primitive
    (s : State) (frame : Frame) (frames : list Frame) :
  passesChecks (this s) = true ->
  show (this s) = true ->
  let s1 := snd (run (setPositions JS.undefined) s) in
  let r := run (update frame) s1 in
  fst r = inr Undefined
  /\ eventsSince s1 (snd r) = disposal (this s)
  /\ _primitive (this (snd r)) = None
  /\ updateAll frames (snd r) = snd r.
Proof.
  destruct s as [p [n evs]]. intros Hc Hs s1 r. subst r s1.
  cbn [this] in Hc, Hs.
  rewrite (setPositions_accepts None) by exact I. cbn [snd].
  set (p1 := set__createPrimitive true _).
  assert (Hc1 : passesChecks p1 = true) by (subst p1; now destruct p).
  assert (Hs1 : show p1 = true) by (subst p1; now destruct p).
  assert (Hn1 : _createPrimitive p1 = true) by (subst p1; now destruct p).
  rewrite update_clear; try assumption.
  - cbn [fst snd this nextRef events]. rewrite eventsSince_app.
    repeat apply conj.
    + reflexivity.
    + subst p1. unfold disposal. now destruct p.
    + now destruct p1.
    + induction frames as [|f fs IH]; cbn [updateAll]; [reflexivity|].
      rewrite update_idle; [exact IH| | |].
      * subst p1. now destruct p.
      * subst p1. now destruct p.
      * subst p1. now destruct p.
  - now rewrite Hn1.
  - now apply dirty_requested.
  - subst p1. now destruct p.
Qed.

(** An instance: the polygon that holds the sample triangle, built by one
    [update], is cleared. *)
Lemma clearing_releases_the_primitive_witness :
  let s := snd (run (update Sample.frame) Sample.triangle) in
  let s1 := snd (run (setPositions JS.undefined) s) in
  heldRef (this s) = Some 2
  /\ eventsSince s1 (snd (run (update Sample.frame) s1)) =
     [PrimitiveDestroy 2].
Proof.
  intros s s1. split; [reflexivity|].
  destruct (clearing_releases_the_primitive s Sample.frame [Sample.frame])
    as (_ & He & _); [reflexivity|reflexivity|].
  exact He.
Defined.

(** ** Any sequence of uses

    A caller calls methods and assigns the public properties in any order. *)

Inductive Action : Type :=
| Call (m : Method)
| WriteEllipsoid (v : option Ellipsoid)
| WriteGranularity (v : JS.value)
| WriteHeight (v : JS.value)
| WriteTextureRotationAngle (v : JS.value)
| WriteShow (v : bool)
| WriteMaterial (v : option Material).

Definition perform (eliminateHoles : Ring -> list Ring -> Ring)
    (a : Action) (s : State) : State :=
  match a with
  | Call m => snd (invoke eliminateHoles m s)
  | WriteEllipsoid v => assigned (set_ellipsoid v) s
  | WriteGranularity v => assigned (set_granularity v) s
  | WriteHeight v => assigned (set_height v) s
  | WriteTextureRotationAngle v => assigned (set_textureRotationAngle v) s
  | WriteShow v => assigned (set_show v) s
  | WriteMaterial v => assigned (set_material v) s
  end.

Definition performAll (eliminateHoles : Ring -> list Ring -> Ring)
    (actions : list Action) (s : State) : State :=
  fold_left (fun s a => perform eliminateHoles a s) actions s.

(** The references of the primitives built in a list of events. *)
Definition builtRefs (evs : list Event) : list Ref :=
  map primitiveRef (buildRequests evs).

(** The polygon owns its primitives: those built are those destroyed, in
    the same order, followed by the one held; their references are distinct
    and were fresh; a destroyed polygon holds none. *)
Definition owns (s : State) : Prop :=
  builtRefs (events (world s)) =
  disposals (events (world s)) ++ heldList (this s)
  /\ Forall (fun r => r < nextRef (world s)) (builtRefs (events (world s)))
  /\ NoDup (builtRefs (events (world s)))
  /\ (destroyed (this s) = true -> _primitive (this s) = None).

(** The held primitive was built from the snapshot, and from the stored
    boundary unless a new one was requested since. *)
Definition builtFromSnapshot (p : Polygon) : Prop :=
  forall primitive,
    _primitive p = Some primitive ->
    geometryEllipsoid (geometryInstances primitive) = _ellipsoid p
    /\ geometryGranularity (geometryInstances primitive) = _granularity p
    /\ geometryHeight (geometryInstances primitive) = _height p
    /\ stRotation (geometryInstances primitive) = _textureRotationAngle p
    /\ aboveGround (appearance primitive) =
       JS.lt (Some JS.zero) (_height p)
    /\ (_createPrimitive p = false ->
        geometryPositions (geometryInstances primitive) = _positions p
        /\ geometryPolygonHierarchy (geometryInstances primitive) =
           _polygonHierarchy p).

(** Two numbers the dirty check takes for the same. *)
Definition sameNumber (a b : JS.value) : Prop :=
  a = b \/ JS.strictNeq a b = false.

(** What one action can do to a state. *)
Inductive Step (s : State) : State -> Prop :=
| StepNothing : Step s s
| StepFields s' :
    world s' = world s ->
    _primitive (this s') = _primitive (this s) ->
    shadow (this s') = shadow (this s) ->
    destroyed (this s') = destroyed (this s) ->
    (_createPrimitive (this s') = true
     \/ (_createPrimitive (this s') = _createPrimitive (this s)
         /\ boundary (this s') = boundary (this s))) ->
    Step s s'
| StepUpdate frame :
    destroyed (this s) = false ->
    Step s (snd (run (update frame) s))
| StepDestroy :
    destroyed (this s) = false ->
    Step s
      (mkState (set_destroyed true (set__primitive None (this s)))
         (mkWorld (nextRef (world s))
            (events (world s) ++ disposal (this s)))).

Lemma isDestroyed_reads s : run isDestroyed s = (inr (Boolean false), s).
Proof. reflexivity. Qed.

Lemma perform_step eliminateHoles a s : Step s (perform eliminateHoles a s).
Proof.
  destruct s as [p w].
  destruct a as [m|v|v|v|v|v|v]; cbn [perform];
    try (apply StepFields; unfold assigned; cbn [this world];
         try reflexivity; try (now destruct p);
         right; now destruct p).
  unfold invoke. cbn [this].
  destruct (destroyed p) eqn:Hd.
  { destruct m; apply StepNothing. }
  destruct m as [|positions|hierarchy|frame| |]; cbn [body].
  - fold (run getPositions (mkState p w)). rewrite getPositions_reads.
    apply StepNothing.
  - fold (run (setPositions positions) (mkState p w)).
    destruct positions as [array|].
    + destruct (Nat.lt_ge_cases (List.length array) 3) as [Hlt|Hge].
      * rewrite setPositions_rejects by exact Hlt. apply StepNothing.
      * rewrite (setPositions_accepts (Some array)) by exact Hge.
        apply StepFields; cbn [snd this world]; try (now destruct p).
        left. now destruct p.
    + rewrite (setPositions_accepts None) by exact I.
      apply StepFields; cbn [snd this world]; try (now destruct p).
      left. now destruct p.
  - fold (run (configureFromPolygonHierarchy eliminateHoles hierarchy)
            (mkState p w)).
    destruct (flatten eliminateHoles hierarchy) as [e|polygons] eqn:Hf.
    + rewrite (configure_rejects _ _ _ _ _ Hf). apply StepNothing.
    + rewrite (configure_accepts _ _ _ _ _ Hf).
      apply StepFields; cbn [snd this world]; try (now destruct p).
      left. now destruct p.
  - fold (run (update frame) (mkState p w)). now apply StepUpdate.
  - apply StepNothing.
  - pose proof (invoke_destroy eliminateHoles p w Hd) as H.
    unfold invoke in H. cbn [this] in H. rewrite Hd in H. cbn [body] in H.
    rewrite H. cbn [snd]. now apply (StepDestroy (mkState p w)).
Qed.

Lemma builtRefs_app l1 l2 : builtRefs (l1 ++ l2) = builtRefs l1 ++ builtRefs l2.
Proof. unfold builtRefs, buildRequests. now rewrite flat_map_app, map_app. Qed.

Lemma disposals_app l1 l2 : disposals (l1 ++ l2) = disposals l1 ++ disposals l2.
Proof. unfold disposals. now rewrite flat_map_app. Qed.

Lemma builtRefs_disposal p : builtRefs (disposal p) = [].
Proof. unfold builtRefs. now rewrite buildRequests_disposal. Qed.

Lemma builtRefs_rebuild frame p q :
  builtRefs (disposal p ++ NewPrimitive q :: drawn frame p q) =
  [primitiveRef q].
Proof. unfold builtRefs. now rewrite buildRequests_rebuild. Qed.

Lemma heldList_same p p' : _primitive p' = _primitive p -> heldList p' = heldList p.
Proof. unfold heldList, heldRef. now intros ->. Qed.

Lemma NoDup_fresh (l : list Ref) (n : Ref) :
  Forall (fun r => r < n) l -> NoDup l -> NoDup (l ++ [n]).
Proof.
  intros Hlt Hnd. apply NoDup_app; [exact Hnd|repeat constructor; intros []|].
  intros r Hin [<-|[]].
  rewrite Forall_forall in Hlt. apply Hlt in Hin. lia.
Qed.

(** Every action keeps the polygon the owner of its primitives. *)
Lemma owns_step s s' : Step s s' -> owns s -> owns s'.
Proof.
  intros Hstep (Hb & Hf & Hn & Hd).
  destruct Hstep as [|s' Hw Hp Hsh Hde Hc|frame Hlive|Hlive].
  - now repeat split.
  - unfold owns. rewrite Hw, (heldList_same _ _ Hp), Hp, Hde.
    now repeat split.
  - destruct s as [p [n evs]]. cbn [this world events nextRef] in *.
    destruct (update_path frame p (mkWorld n evs))
      as [e Hc Hfc He|Hc Hs|Hc Hs Hcn Hp|primitive Hc Hs Hp Hdi
          |Hc Hs Hp Hdi Hbo|Hc Hs Hp Hdi Hbo];
      cbn [snd]; unfold owns; cbn [this world events nextRef];
      try (now repeat split).
    + rewrite builtRefs_app, disposals_app.
      replace (builtRefs (drawn frame p primitive)) with (@nil Ref)
        by reflexivity.
      replace (disposals (drawn frame p primitive)) with (@nil Ref)
        by reflexivity.
      rewrite !app_nil_r.
      replace (heldList (set__primitive
                 (Some (withMaterial (material p) primitive)) p))
        with (heldList p)
        by (unfold heldList, heldRef; destruct p; cbn in *; now subst).
      repeat split; try assumption.
      intros Hdd. exfalso.
      replace (destroyed (set__primitive
                 (Some (withMaterial (material p) primitive)) p))
        with (destroyed p) in Hdd by now destruct p.
      congruence.
    + rewrite builtRefs_app, disposals_app, disposals_disposal,
        !builtRefs_disposal, !app_nil_r.
      replace (heldList (set__primitive None (snapshot p))) with (@nil Ref)
        by now destruct p.
      rewrite app_nil_r. repeat split; try assumption.
      now destruct p.
    + rewrite builtRefs_app, disposals_app, disposals_rebuild,
        !builtRefs_rebuild.
      fold (heldList p). cbn [built primitiveRef].
      replace (heldList (set__primitive
                 (Some (withMaterial (material p) (built p n)))
                 (snapshot p)))
        with [n] by now destruct p.
      repeat split.
      * now rewrite Hb.
      * apply Forall_app. split; [|repeat constructor].
        eapply Forall_impl; [|exact Hf]. cbn. intros; lia.
      * now apply NoDup_fresh.
      * intros Hdd. exfalso.
        replace (destroyed (set__primitive
                   (Some (withMaterial (material p) (built p n)))
                   (snapshot p)))
          with (destroyed p) in Hdd by now destruct p.
        congruence.
  - destruct s as [p [n evs]]. cbn [this world events nextRef] in *.
    unfold owns; cbn [this world events nextRef].
    rewrite builtRefs_app, disposals_app, disposals_disposal,
      !builtRefs_disposal, !app_nil_r.
    replace (heldList (set_destroyed true (set__primitive None p)))
      with (@nil Ref) by now destruct p.
    rewrite app_nil_r. repeat split; try assumption.
    now destruct p.
Qed.

(** Every action keeps the held primitive built from the snapshot. *)
Lemma builtFromSnapshot_step s s' :
  Step s s' -> builtFromSnapshot (this s) -> builtFromSnapshot (this s').
Proof.
  intros Hstep Hinv.
  destruct Hstep as [|s' Hw Hp Hsh Hde Hc|frame Hlive|Hlive].
  - exact Hinv.
  - intros primitive Hheld. rewrite Hp in Hheld.
    destruct (Hinv primitive Hheld) as (H1 & H2 & H3 & H4 & H5 & H6).
    unfold shadow in Hsh. injection Hsh as E1 E2 E3 E4.
    rewrite E1, E2, E3, E4.
    repeat split; try assumption.
    + destruct Hc as [Hc|[Hc Hb]]; [congruence|].
      unfold boundary in Hb. injection Hb as B1 B2.
      rewrite B1. apply H6. congruence.
    + destruct Hc as [Hc|[Hc Hb]]; [congruence|].
      unfold boundary in Hb. injection Hb as B1 B2.
      rewrite B2. apply H6. congruence.
  - destruct s as [p w]. cbn [this] in *.
    destruct (update_path frame p w)
      as [e Hc Hfc He|Hc Hs|Hc Hs Hcn Hp|primitive Hc Hs Hp Hdi
          |Hc Hs Hp Hdi Hbo|Hc Hs Hp Hdi Hbo];
      cbn [snd this]; try exact Hinv.
    + intros primitive' Hheld.
      destruct (Hinv primitive Hp) as (H1 & H2 & H3 & H4 & H5 & H6).
      destruct p; cbn in *. injection Hheld as <-. cbn.
      repeat split; try assumption; now apply H6.
    + intros primitive' Hheld. destruct p; discriminate.
    + intros primitive' Hheld.
      destruct p; cbn in *. injection Hheld as <-. cbn. repeat split.
  - intros primitive Hheld. cbn [this] in Hheld.
    destruct (this s); discriminate.
Qed.

Lemma performAll_keeps (P : State -> Prop) eliminateHoles :
  (forall s s', Step s s' -> P s -> P s') ->
  forall actions s, P s -> P (performAll eliminateHoles actions s).
Proof.
  intros Hstep actions. unfold performAll.
  induction actions as [|a actions IH]; intros s Hs; cbn [fold_left];
    [exact Hs|].
  apply IH. apply (Hstep s); [apply perform_step|exact Hs].
Qed.

Lemma constructed_owns WGS84 oneDegree options n :
  owns (constructed WGS84 oneDegree options (mkWorld n [])).
Proof.
  unfold owns. cbn. repeat split; constructor.
Qed.

Lemma constructed_builtFromSnapshot WGS84 oneDegree options w :
  builtFromSnapshot (this (constructed WGS84 oneDegree options w)).
Proof. intros primitive Hheld. discriminate. Qed.

Lemma destroy_marks eliminateHoles s :
  destroyed (this (perform eliminateHoles (Call Destroy) s)) = true.
Proof.
  destruct s as [p w]. cbn [perform].
  destruct (destroyed p) eqn:Hd.
  - unfold invoke. cbn [this]. now rewrite Hd.
  - rewrite invoke_destroy by exact Hd. cbn [snd this]. now destruct p.
Qed.

(** X10: the polygon owns its primitives.  Start from a new polygon and let
    the caller call methods and assign properties in any order.  Then the
    primitives built so far are exactly the primitives destroyed so far, in
    the order they were built, followed by the one the polygon holds, if
    any: none is destroyed twice, none is destroyed while held, none is
    left over, and each was a new object.  After [destroy()] every
    primitive ever built has been destroyed, once, and none is held. *)
Theorem polygon_owns_its_primitives
    (eliminateHoles : Ring -> list Ring -> Ring)
    (WGS84 : Ellipsoid) (oneDegree : JS.number) (options : option Options)
    (n : Ref) (actions : list Action) :
  let s :=
    performAll eliminateHoles actions
      (constructed WGS84 oneDegree options (mkWorld n [])) in
  let s' := perform eliminateHoles (Call Destroy) s in
  builtRefs (events (world s)) =
  disposals (events (world s)) ++ heldList (this s)
  /\ NoDup (builtRefs (events (world s)))
  /\ NoDup (disposals (events (world s)))
  /\ Forall (fun r => r < nextRef (world s)) (builtRefs (events (world s)))
  /\ builtRefs (events (world s')) = disposals (events (world s'))
  /\ NoDup (disposals (events (world s')))
  /\ _primitive (this s') = None.
Proof.
  intros s s'.
  assert (Hs : owns s).
  { apply performAll_keeps; [exact owns_step|apply constructed_owns]. }
  assert (Hs' : owns s').
  { apply (owns_step s); [apply perform_step|exact Hs]. }
  destruct Hs as (Hb & Hf & Hn & _).
  destruct Hs' as (Hb' & _ & Hn' & Hd').
  pose proof (Hd' (destroy_marks eliminateHoles s)) as Hnone.
  assert (Hheld : heldList (this s') = []).
  { unfold heldList, heldRef. now rewrite Hnone. }
  rewrite Hheld, app_nil_r in Hb'.
  repeat apply conj; try assumption.
  - rewrite Hb in Hn. now apply NoDup_app_remove_r in Hn.
  - now rewrite <- Hb'.
Qed.

(** X11: no stale geometry.  Start from a new polygon and let the caller
    call methods and assign properties in any order.  If an [update] of the
    shown polygon then completes and leaves a primitive held, that primitive
    was built from the stored positions and polygons as they are now, from
    the very ellipsoid object now assigned, and from a granularity, height
    and texture rotation that are the current ones or equal to them as
    numbers; its [aboveGround] flag says whether the height it was built
    with is above zero, and it carries the current material. *)
Theorem held_primitive_matches_configuration
    (eliminateHoles : Ring -> list Ring -> Ring)
    (WGS84 : Ellipsoid) (oneDegree : JS.number) (options : option Options)
    (w : World) (actions : list Action) (frame : Frame)
    (primitive : Primitive) :
  let s :=
    performAll eliminateHoles actions
      (constructed WGS84 oneDegree options w) in
  let s' := perform eliminateHoles (Call (Update frame)) s in
  show (this s) = true ->
  fst (invoke eliminateHoles (Update frame) s) = inr Undefined ->
  _primitive (this s') = Some primitive ->
  geometryPositions (geometryInstances primitive) = _positions (this s)
  /\ geometryPolygonHierarchy (geometryInstances primitive) =
     _polygonHierarchy (this s)
  /\ ellipsoidStrictNeq (geometryEllipsoid (geometryInstances primitive))
       (ellipsoid (this s)) = false
  /\ sameNumber (geometryGranularity (geometryInstances primitive))
       (granularity (this s))
  /\ sameNumber (geometryHeight (geometryInstances primitive))
       (height (this s))
  /\ sameNumber (stRotation (geometryInstances primitive))
       (textureRotationAngle (this s))
  /\ aboveGround (appearance primitive) =
     JS.lt (Some JS.zero) (geometryHeight (geometryInstances primitive))
  /\ appearanceMaterial (appearance primitive) = material (this s).
Proof.
  intros s s'.
  assert (Hinv : builtFromSnapshot (this s)).
  { apply (performAll_keeps (fun s => builtFromSnapshot (this s)));
      [exact builtFromSnapshot_step|apply constructed_builtFromSnapshot]. }
  subst s'. cbn [perform]. generalize dependent s. intros [p w0] Hinv.
  cbn [this] in *. unfold invoke. cbn [this].
  destruct (destroyed p); [discriminate|].
  change (call Undefined (body eliminateHoles (Update frame)))
    with (run (update frame)).
  destruct (update_path frame p w0)
    as [e Hc Hfc He|Hc Hs|Hc Hs Hcn Hp|held Hc Hs Hp Hdi
        |Hc Hs Hp Hdi Hbo|Hc Hs Hp Hdi Hbo];
    cbn [fst snd this]; intros Hshow Hdone Hheld; try congruence.
  - destruct (Hinv held Hp) as (H1 & H2 & H3 & H4 & H5 & H6).
    destruct (dirty_false_inv p Hdi) as (Dn & De & Dg & Dh & Dt).
    destruct (H6 Dn) as (H7 & H8).
    assert (E : primitive = withMaterial (material p) held)
      by (destruct p; cbn in *; congruence).
    subst primitive. cbn [withMaterial geometryInstances appearance
                          aboveGround appearanceMaterial].
    rewrite H1, H2, H3, H4, H5, H7, H8.
    repeat apply conj; try reflexivity; try assumption;
      right; assumption.
  - destruct p; discriminate.
  - assert (E : primitive = withMaterial (material p) (built p (nextRef w0)))
      by (destruct p; cbn in *; congruence).
    subst primitive.
    cbn [withMaterial built geometryInstances appearance aboveGround
         appearanceMaterial geometryPositions geometryPolygonHierarchy
         geometryEllipsoid geometryGranularity geometryHeight stRotation].
    repeat apply conj; try reflexivity; try (left; reflexivity).
    apply ellipsoidStrictNeq_same.
Qed.

(** An instance: the sample triangle is set and built, and the height is
    then assigned minus zero, which the dirty check takes for zero. *)
Lemma held_primitive_matches_configuration_witness :
  let actions :=
    [Call (SetPositions (Some Sample.outerTriangle));
     Call (Update Sample.frame);
     WriteHeight (Some JS.negZero)] in
  let s :=
    performAll Sample.appendHoles actions
      (constructed Sample.WGS84 Sample.oneDegree None Sample.initialWorld) in
  let s' := perform Sample.appendHoles (Call (Update Sample.frame)) s in
  height (this s) = Some JS.negZero
  /\ option_map (fun q => geometryHeight (geometryInstances q))
       (_primitive (this s')) = Some (Some JS.zero)
  /\ sameNumber (Some JS.zero) (height (this s))
  /\ option_map (fun q => geometryPositions (geometryInstances q))
       (_primitive (this s')) = Some (_positions (this s)).
Proof.
  intros actions s s'. split; [reflexivity|]. split; [reflexivity|].
  edestruct (held_primitive_matches_configuration Sample.appendHoles
               Sample.WGS84 Sample.oneDegree None Sample.initialWorld actions
               Sample.frame)
    as (_ & _ & _ & _ & H5 & _);
    [reflexivity|reflexivity|reflexivity|].
  split; [exact H5|reflexivity].
Defined.

(** X13: a request made while the polygon is hidden is deferred, not lost.
    On a hidden polygon that passes the checks, [setPositions] with at least
    three positions followed by any number of updates builds and destroys
    nothing and leaves polygon and world as [setPositions] left them; once
    [show] is assigned [true], the next [update] builds exactly one
    primitive, from those positions. *)
Theorem request_survives_hiding
    (s : State) (positions : Ring) (frames : list Frame) (frame : Frame) :
  passesChecks (this s) = true ->
  3 <= List.length positions ->
  let hidden :=
    snd (run (setPositions (Some positions))
           (assigned (set_show false) s)) in
  updateAll frames hidden = hidden
  /\ buildsOnceFrom positions frame (assigned (set_show true) hidden).
Proof.
  destruct s as [p w]. intros Hc Hlen hidden. subst hidden.
  cbn [this] in Hc. unfold assigned. cbn [this world].
  rewrite (setPositions_accepts (Some positions)) by exact Hlen.
  cbn [snd this world]. set (p1 := set__createPrimitive true _).
  assert (Hc1 : passesChecks p1 = true) by (subst p1; now destruct p).
  assert (Hs1 : show p1 = false) by (subst p1; now destruct p).
  split.
  - induction frames as [|f fs IH]; cbn [updateAll]; [reflexivity|].
    now rewrite update_hidden.
  - apply update_requested_builds_once; cbn [this];
      subst p1; now destruct p.
Qed.

(** An instance: the default polygon, hidden, is given the sample triangle
    and updated twice before it is shown. *)
Lemma request_survives_hiding_witness :
  let hidden :=
    snd (run (setPositions (Some Sample.outerTriangle))
           (assigned (set_show false) (Sample.created None))) in
  events (world (updateAll [Sample.frame; Sample.frame] hidden)) = []
  /\ buildsOnceFrom Sample.outerTriangle Sample.frame
       (assigned (set_show true) hidden).
Proof.
  intros hidden.
  destruct (request_survives_hiding (Sample.created None)
              Sample.outerTriangle [Sample.frame; Sample.frame] Sample.frame)
    as (H1 & H2); [reflexivity|cbn; lia|].
  fold hidden in H1, H2. split; [now rewrite H1|exact H2].
Defined.

(** ** What [getPositions] returns *)

(** An action after which [getPositions] answers as before: anything but a
    call of one of the two setters, and but [destroy], after which no method
    is to be called. *)
Definition keepsPositions (a : Action) : bool :=
  match a with
  | Call (SetPositions _) => false
  | Call (ConfigureFromPolygonHierarchy _) => false
  | Call Destroy => false
  | _ => true
  end.

Lemma perform_keeps_positions eliminateHoles a s :
  keepsPositions a = true ->
  _positions (this (perform eliminateHoles a s)) = _positions (this s).
Proof.
  destruct s as [p w].
  destruct a as [m|v|v|v|v|v|v]; cbn [perform keepsPositions];
    try (intros _; unfold assigned; now destruct p).
  unfold invoke. cbn [this].
  destruct (destroyed p) eqn:Hd.
  { now destruct m. }
  destruct m as [|positions|hierarchy|frame| |]; cbn [body];
    try discriminate; intros _.
  - fold (run getPositions (mkState p w)). now rewrite getPositions_reads.
  - change (call Undefined (update frame)) with (run (update frame)).
    destruct (update_path frame p w); cbn [snd this];
      try reflexivity; now destruct p.
  - reflexivity.
Qed.

Lemma performAll_keeps_positions eliminateHoles rest s :
  forallb keepsPositions rest = true ->
  _positions (this (performAll eliminateHoles rest s)) = _positions (this s).
Proof.
  unfold performAll. revert s.
  induction rest as [|a rest IH]; intros s H; cbn [fold_left];
    [reflexivity|].
  cbn [forallb] in H. apply andb_true_iff in H as [Ha Hrest].
  rewrite (IH _ Hrest). now apply perform_keeps_positions.
Qed.

(** X3: [getPositions] changes nothing and returns what the last setter
    that completed left in [_positions].  Let the caller, after a call of a
    setter, call [update], [getPositions] and [isDestroyed] and assign the
    public properties in any order ([rest]).  Then [getPositions] returns
    the array given to [setPositions] (or [undefined]) if that call
    completed, [undefined] if it was [configureFromPolygonHierarchy] that
    completed, and what it returned before the setter if the setter threw;
    with no call of a setter it returns what it returned before, and on a
    new polygon the positions option. *)
Theorem getPositions_returns_what_the_last_setter_stored
    (eliminateHoles : Ring -> list Ring -> Ring)
    (s : State) (positions : option Ring) (hierarchy : Hierarchy)
    (rest : list Action)
    (WGS84 : Ellipsoid) (oneDegree : JS.number) (options : option Options)
    (w : World) :
  forallb keepsPositions rest = true ->
  let read (s' : State) :=
    fst (run getPositions (performAll eliminateHoles rest s')) in
  let set := run (setPositions positions) s in
  let configured :=
    run (configureFromPolygonHierarchy eliminateHoles hierarchy) s in
  (forall s', snd (run getPositions s') = s')
  /\ read s = fst (run getPositions s)
  /\ (forall v, fst set = inr v ->
        read (snd set) = inr (returnedPositions positions))
  /\ (forall e, fst set = inl e -> read (snd set) = fst (run getPositions s))
  /\ (forall v, fst configured = inr v -> read (snd configured) = inr Undefined)
  /\ (forall e, fst configured = inl e ->
        read (snd configured) = fst (run getPositions s))
  /\ read (constructed WGS84 oneDegree options w) =
     inr (returnedPositions
            (optionPositions (defaultValue options EMPTY_OBJECT))).
Proof.
  intros Hrest read set configured. subst read set configured. cbv beta.
  assert (R : forall s',
             fst (run getPositions (performAll eliminateHoles rest s')) =
             inr (returnedPositions (_positions (this s')))).
  { intros s'. rewrite getPositions_reads. cbn [fst].
    now rewrite (performAll_keeps_positions _ _ _ Hrest). }
  rewrite !R. destruct s as [p w0].
  refine (conj _ (conj _ (conj _ (conj _ (conj _ (conj _ _)))))).
  - intros s'. now rewrite getPositions_reads.
  - now rewrite getPositions_reads.
  - destruct positions as [array|].
    + destruct (Nat.lt_ge_cases (List.length array) 3) as [Hlt|Hge].
      * rewrite setPositions_rejects by exact Hlt. discriminate.
      * rewrite (setPositions_accepts (Some array)) by exact Hge.
        intros v _. now destruct p.
    + rewrite (setPositions_accepts None) by exact I.
      intros v _. now destruct p.
  - rewrite getPositions_reads. cbn [fst].
    destruct positions as [array|].
    + destruct (Nat.lt_ge_cases (List.length array) 3) as [Hlt|Hge].
      * now rewrite setPositions_rejects by exact Hlt.
      * rewrite (setPositions_accepts (Some array)) by exact Hge.
        discriminate.
    + rewrite (setPositions_accepts None) by exact I. discriminate.
  - destruct (flatten eliminateHoles hierarchy) as [e|polygons] eqn:Hf.
    + rewrite (configure_rejects _ _ _ _ _ Hf). discriminate.
    + rewrite (configure_accepts _ _ _ _ _ Hf). intros v _. now destruct p.
  - rewrite getPositions_reads. cbn [fst].
    destruct (flatten eliminateHoles hierarchy) as [e|polygons] eqn:Hf.
    + now rewrite (configure_rejects _ _ _ _ _ Hf).
    + rewrite (configure_accepts _ _ _ _ _ Hf). discriminate.
  - reflexivity.
Qed.

(** An instance: the default polygon; after either setter the caller
    updates, assigns a height, reads the positions and updates again. *)
Lemma getPositions_returns_what_the_last_setter_stored_witness :
  let rest :=
    [Call (Update Sample.frame); WriteHeight (Some one); Call GetPositions;
     Call (Update Sample.frame)] in
  let read (s' : State) :=
    fst (run getPositions (performAll Sample.appendHoles rest s')) in
  let s :=
    snd (run (setPositions (Some Sample.innerTriangle))
           (Sample.created None)) in
  read (snd (run (setPositions (Some Sample.outerTriangle)) s)) =
  inr (Positions Sample.outerTriangle)
  /\ read
       (snd (run (configureFromPolygonHierarchy Sample.appendHoles
                    Sample.triangleInTriangle) s)) = inr Undefined
  /\ read s = inr (Positions Sample.innerTriangle).
Proof.
  intros rest read s.
  destruct (getPositions_returns_what_the_last_setter_stored
              Sample.appendHoles s (Some Sample.outerTriangle)
              Sample.triangleInTriangle rest Sample.WGS84 Sample.oneDegree
              None Sample.initialWorld)
    as (_ & H2 & H3 & _ & H5 & _); [reflexivity|].
  split; [exact (H3 Undefined eq_refl)|].
  split; [exact (H5 Undefined eq_refl)|].
  exact H2.
Defined.
